(** * mongonotes: the block editor, the text-block widget and the notes API

  A shallow embedding of the parts of the application that carry its
  behaviour:

  - [TextBlock.handleKeyDown]  (components/blocks/TextBlock.tsx),
  - [BlockEditor]              (components/blocks/BlockEditor.tsx),
  - the note page and the dashboard (app/note/[id]/page.tsx, app/page.tsx),
  - the route handlers of /api/notes and /api/notes/[id].

  JavaScript strings are sequences of code units; the text of a textarea is
  modelled as [list ascii] (code units below 256).  Numbers that index
  strings and arrays are [Z], with the clamping that [substring],
  [lastIndexOf] and [splice] perform written out. *)

From Stdlib Require Import ZArith Ascii String Lia.
From stdpp Require Import gmap strings list fin_maps pretty.

Local Open Scope Z_scope.

(** ** JavaScript string primitives used by the text block *)

Module JS.

Definition jsstring := list ascii.

(** A string literal as a sequence of code units. *)
Definition str (s : string) : jsstring := list_ascii_of_string s.

Definition len (s : jsstring) : Z := Z.of_nat (length s).

(** Indices are clamped to [0, length]. *)
Definition clamp (s : jsstring) (i : Z) : nat :=
  Z.to_nat (Z.min (Z.max i 0) (len s)).

(** [s.substring(a, b)]: both indices are clamped and swapped when
    [a > b]. *)
Definition substring (s : jsstring) (a b : Z) : jsstring :=
  let a' := clamp s a in
  let b' := clamp s b in
  let lo := Nat.min a' b' in
  let hi := Nat.max a' b' in
  take (hi - lo)%nat (drop lo s).

(** [s.substring(a)]: to the end of the string. *)
Definition substringFrom (s : jsstring) (a : Z) : jsstring :=
  substring s a (len s).

(** Largest index of [c] in [l], or [-1]. *)
Fixpoint last_index (c : ascii) (l : jsstring) : Z :=
  match l with
  | [] => -1
  | x :: l' =>
      let r := last_index c l' in
      if 0 <=? r then r + 1
      else if Ascii.eqb x c then 0 else -1
  end.

(** [s.lastIndexOf(c, position)] for a one-character search string: the
    largest index [k <= max(position, 0)] with [s[k] = c], or [-1]. *)
Definition lastIndexOf (s : jsstring) (c : ascii) (position : Z) : Z :=
  last_index c (take (S (Z.to_nat (Z.max position 0))) s).

(** White space and line terminators of ECMAScript among the code units
    below 256: TAB, LF, VT, FF, CR, SPACE and NBSP. *)
Definition isWhiteSpace (c : ascii) : bool :=
  let n := N_of_ascii c in
  ((9 <=? n) && (n <=? 13))%N || (n =? 32)%N || (n =? 160)%N.

(** [s.trimStart()]. *)
Fixpoint trimStart (s : jsstring) : jsstring :=
  match s with
  | [] => []
  | c :: s' => if isWhiteSpace c then trimStart s' else s
  end.

(** [' '.repeat(n)]. *)
Definition spaces (n : Z) : jsstring := replicate (Z.to_nat n) " "%char.

Definition eqb (s t : jsstring) : bool := bool_decide (s = t).

(** [s.endsWith(t)]. *)
Definition endsWith (s t : jsstring) : bool :=
  (length t <=? length s)%nat
  && eqb (drop (length s - length t)%nat s) t.

End JS.

Import JS.

(** ** The text block widget (TextBlock.tsx) *)

Module TextBlock.

(** Size of a tab in spaces. *)
Definition TAB_SIZE : Z := 2.

Definition newline : ascii := "010"%char.

(** The part of the textarea that the handler reads. *)
Record Textarea := {
  value : jsstring;
  selectionStart : Z;
  selectionEnd : Z
}.

(** The part of the keyboard event that the handler reads. *)
Record KeyboardEvent := {
  key : string;
  shiftKey : bool
}.

(** What one call of the handler does: whether it called
    [e.preventDefault()], the content passed to [onChange], the position the
    deferred callback assigns to both ends of the selection, and whether the
    event was handed to the parent's [onKeyDown]. *)
Record Handled := {
  defaultPrevented : bool;
  changed : option jsstring;
  caret : option Z;
  delegated : bool
}.

Definition untouched : Handled :=
  {| defaultPrevented := false; changed := None; caret := None;
     delegated := false |}.

Definition handleKeyDown (textarea : Textarea) (e : KeyboardEvent) : Handled :=
  let start := selectionStart textarea in
  let end_ := selectionEnd textarea in
  let content := value textarea in
  if String.eqb (key e) "Tab" then
    if negb (shiftKey e) then
      let tabSpaces := spaces TAB_SIZE in
      let newContent :=
        substring content 0 start ++ tabSpaces ++ substringFrom content end_ in
      {| defaultPrevented := true; changed := Some newContent;
         caret := Some (start + TAB_SIZE); delegated := false |}
    else
      let lineStart := lastIndexOf content newline (start - 1) + 1 in
      let lineBeforeCursor := substring content lineStart start in
      let spacesToRemove :=
        Z.min TAB_SIZE (len lineBeforeCursor - len (trimStart lineBeforeCursor)) in
      if 0 <? spacesToRemove then
        let newContent :=
          substring content 0 lineStart
          ++ substringFrom lineBeforeCursor spacesToRemove
          ++ substringFrom content start in
        {| defaultPrevented := true; changed := Some newContent;
           caret := Some (Z.max lineStart (start - spacesToRemove));
           delegated := false |}
      else
        {| defaultPrevented := true; changed := None; caret := None;
           delegated := false |}
  else
    let other :=
      if (String.eqb (key e) "Enter" && shiftKey e)
         || (String.eqb (key e) "/" && JS.eqb content [])
      then {| defaultPrevented := false; changed := None; caret := None;
              delegated := true |}
      else untouched in
    if String.eqb (key e) "Backspace" && (start =? end_) then
      let lineStart := lastIndexOf content newline (start - 1) + 1 in
      let beforeCursor := substring content lineStart start in
      if (TAB_SIZE <=? len beforeCursor)
         && endsWith beforeCursor (spaces TAB_SIZE)
         && ((start - lineStart =? TAB_SIZE)
             || (Z.rem (start - lineStart) TAB_SIZE =? 0))
      then
        let newContent :=
          substring content 0 (start - TAB_SIZE) ++ substringFrom content start in
        {| defaultPrevented := true; changed := Some newContent;
           caret := Some (start - TAB_SIZE); delegated := false |}
      else if JS.eqb content [] then
        {| defaultPrevented := false; changed := None; caret := None;
           delegated := true |}
      else other
    else other.

(** The textarea after the handler's effects: the widget is controlled, so
    its value is the content last passed to [onChange]; the deferred
    callback then places the collapsed selection. *)
Definition settle (textarea : Textarea) (h : Handled) : Textarea :=
  {| value := default (value textarea) (changed h);
     selectionStart := default (selectionStart textarea) (caret h);
     selectionEnd := default (selectionEnd textarea) (caret h) |}.

Definition press (textarea : Textarea) (e : KeyboardEvent) : Textarea :=
  settle textarea (handleKeyDown textarea e).

Definition Tab : KeyboardEvent := {| key := "Tab"; shiftKey := false |}.
Definition ShiftTab : KeyboardEvent := {| key := "Tab"; shiftKey := true |}.
Definition Backspace : KeyboardEvent :=
  {| key := "Backspace"; shiftKey := false |}.

(** A textarea with a collapsed selection. *)
Definition cursorAt (s : jsstring) (pos : Z) : Textarea :=
  {| value := s; selectionStart := pos; selectionEnd := pos |}.

(** [pre] ends where a line begins: it is empty or ends with a newline. *)
Definition lineBoundary (pre : jsstring) : Prop :=
  pre = [] \/ exists p, pre = p ++ [newline].

(** The first code unit of [s], if any, is not white space. *)
Definition noLeadingWhiteSpace (s : jsstring) : Prop :=
  match s with
  | [] => True
  | c :: _ => isWhiteSpace c = false
  end.

End TextBlock.

(** ** JavaScript arrays as the editor uses them *)

Module JSArray.

Section Ops.
Context {A : Type}.

(** [a[i]] for a number [i]: [undefined] outside the array. *)
Definition get (a : list A) (i : Z) : option A :=
  if i <? 0 then None else a !! Z.to_nat i.

(** The position at which [a.splice(start, ...)] operates: a negative
    [start] counts from the end, and the result is clamped to the
    array. *)
Definition spliceStart (a : list A) (start : Z) : nat :=
  let n := Z.of_nat (length a) in
  if start <? 0 then Z.to_nat (Z.max (n + start) 0)
  else Z.to_nat (Z.min start n).

(** [a.splice(start, 0, x)]. *)
Definition spliceInsert (a : list A) (start : Z) (x : A) : list A :=
  let k := spliceStart a start in
  take k a ++ x :: drop k a.

(** [a.splice(start, 1)]. *)
Definition spliceDelete (a : list A) (start : Z) : list A :=
  let k := spliceStart a start in
  take k a ++ drop (S k) a.

(** [a[i] = x] for [0 <= i]: inside the array the element is replaced, at
    [i = a.length] the array grows by one, and beyond that JavaScript
    leaves empty slots before [x], which is no longer an array of
    elements: [None]. *)
Definition set (a : list A) (i : nat) (x : A) : option (list A) :=
  if (i <? length a)%nat then Some (<[i:=x]> a)
  else if (i =? length a)%nat then Some (a ++ [x])
  else None.

(** [a.findIndex(p)]. *)
Fixpoint findIndex (p : A -> bool) (a : list A) : Z :=
  match a with
  | [] => -1
  | x :: a' =>
      if p x then 0
      else let r := findIndex p a' in if r <? 0 then -1 else r + 1
  end.
End Ops.

End JSArray.

(** ** The block model (components/blocks/types.ts) *)

Module Block.

Inductive BlockType := text | heading | todo | table | image.

(** The content payloads of the five block interfaces. *)
Inductive Content :=
| TextContent (s : string)
| HeadingContent (text : string) (level : Z)
| TodoContent (text : string) (checked : bool)
| TableContent (rows : list (list string))
| ImageContent (src alt : string) (caption : option string).

Record BlockData := {
  id : string;
  type : BlockType;
  content : Content
}.

End Block.

(** ** The block editor (components/blocks/BlockEditor.tsx) *)

Module BlockEditor.
Import Block.

(** The component's state.  Identifiers produced by [uuidv4()] are inputs of
    the operations that draw them. *)
Record EditorState := {
  blocks : list BlockData;
  activeBlockId : option string;
  targetIndex : Z;
  showBlockTypes : bool
}.

(** Ways in which a handler leaves the state space: a [TypeError] from
    reading a property of [undefined], or a block array with empty slots
    (which the next render or spread reads as [undefined] blocks).  A run
    ends there. *)
Inductive Fault := TypeError | SparseArray.

Inductive Outcome :=
| Next (s : EditorState)
| Stuck (f : Fault).

Definition emptyTextBlock (uuid : string) : BlockData :=
  {| id := uuid; type := text; content := TextContent "" |}.

(** The initial state computed by the two [useState] calls. *)
Definition init (initialBlocks : list BlockData) (uuid : string) : EditorState :=
  let blocks0 :=
    if (0 <? length initialBlocks)%nat then initialBlocks
    else [emptyTextBlock uuid] in
  {| blocks := blocks0;
     activeBlockId :=
       if (0 <? length blocks0)%nat then id <$> head blocks0 else None;
     targetIndex := -1;
     showBlockTypes := false |}.

Definition updateBlock (s : EditorState) (updatedBlock : BlockData) : EditorState :=
  {| blocks :=
       (fun block =>
          if String.eqb (id block) (id updatedBlock) then updatedBlock
          else block) <$> blocks s;
     activeBlockId := activeBlockId s;
     targetIndex := targetIndex s;
     showBlockTypes := showBlockTypes s |}.

Definition createBlock (ty : BlockType) (index : Z) (uuid : string) : BlockData :=
  match ty with
  | text => {| id := uuid; type := ty; content := TextContent "" |}
  | todo => {| id := uuid; type := ty; content := TodoContent "" false |}
  | _ => {| id := uuid; type := text; content := TextContent "" |}
  end.

Definition addBlock (s : EditorState) (ty : BlockType) (index : Z)
    (uuid : string) : EditorState :=
  let newBlock := createBlock ty index uuid in
  let updatedBlocks := JSArray.spliceInsert (blocks s) (index + 1) newBlock in
  {| blocks := updatedBlocks;
     activeBlockId := Some (id newBlock);
     targetIndex := targetIndex s;
     showBlockTypes := false |}.

Definition deleteBlock (s : EditorState) (index : Z) : Outcome :=
  if (length (blocks s) =? 1)%nat then Next s
  else
    let updatedBlocks := JSArray.spliceDelete (blocks s) index in
    let n := Z.of_nat (length updatedBlocks) in
    let focus := if n <=? index then n - 1 else index in
    match JSArray.get updatedBlocks focus with
    | Some b =>
        Next {| blocks := updatedBlocks;
                activeBlockId := Some (id b);
                targetIndex := targetIndex s;
                showBlockTypes := showBlockTypes s |}
    | None => Stuck TypeError
    end.

Definition handleSelectBlockType (s : EditorState) (ty : BlockType)
    (uuid : string) : Outcome :=
  if 0 <=? targetIndex s then
    let newBlock := createBlock ty (targetIndex s) uuid in
    match JSArray.set (blocks s) (Z.to_nat (targetIndex s)) newBlock with
    | Some updatedBlocks =>
        Next {| blocks := updatedBlocks;
                activeBlockId := Some (id newBlock);
                targetIndex := targetIndex s;
                showBlockTypes := showBlockTypes s |}
    | None => Stuck SparseArray
    end
  else Next s.

Definition setActiveBlockId (s : EditorState) (a : option string) : EditorState :=
  {| blocks := blocks s; activeBlockId := a;
     targetIndex := targetIndex s; showBlockTypes := showBlockTypes s |}.

Definition setTargetIndex (s : EditorState) (i : Z) : EditorState :=
  {| blocks := blocks s; activeBlockId := activeBlockId s;
     targetIndex := i; showBlockTypes := showBlockTypes s |}.

Definition isEmptyText (b : BlockData) : bool :=
  match type b, content b with
  | text, TextContent s => String.eqb s ""
  | _, _ => false
  end.

(** [handleBlockKeyDown]; [textContentEmpty] is the DOM's answer to
    [e.currentTarget.textContent === '']. *)
Definition handleBlockKeyDown (s : EditorState) (e : TextBlock.KeyboardEvent)
    (blockId : string) (textContentEmpty : bool) (uuid : string) : Outcome :=
  let currentIndex :=
    JSArray.findIndex (fun block => String.eqb (id block) blockId) (blocks s) in
  if String.eqb (TextBlock.key e) "Enter" && TextBlock.shiftKey e then
    Next (addBlock s text currentIndex uuid)
  else if String.eqb (TextBlock.key e) "Backspace" then
    match JSArray.get (blocks s) currentIndex with
    | None => Stuck TypeError
    | Some currentBlock =>
        if isEmptyText currentBlock && (1 <? length (blocks s))%nat then
          match deleteBlock s currentIndex with
          | Next s' =>
              if 0 <? currentIndex then
                match JSArray.get (blocks s) (currentIndex - 1) with
                | Some previous => Next (setActiveBlockId s' (Some (id previous)))
                | None => Stuck TypeError
                end
              else Next s'
          | Stuck f => Stuck f
          end
        else Next s
    end
  else if String.eqb (TextBlock.key e) "/" then
    match JSArray.get (blocks s) currentIndex with
    | None => Stuck TypeError
    | Some currentBlock =>
        if isEmptyText currentBlock || textContentEmpty
        then Next (setTargetIndex s currentIndex)
        else Next s
    end
  else Next s.

(** The events that reach the component. *)
Inductive Op :=
| AddBlock (ty : BlockType) (index : Z) (uuid : string)
| DeleteBlock (index : Z)
| UpdateBlock (updatedBlock : BlockData)
| SelectBlockType (ty : BlockType) (uuid : string)
| KeyDown (e : TextBlock.KeyboardEvent) (blockId : string)
          (textContentEmpty : bool) (uuid : string)
| Focus (position : nat)
| CloseMenu.

Definition step (s : EditorState) (op : Op) : Outcome :=
  match op with
  | AddBlock ty index uuid => Next (addBlock s ty index uuid)
  | DeleteBlock index => deleteBlock s index
  | UpdateBlock b => Next (updateBlock s b)
  | SelectBlockType ty uuid => handleSelectBlockType s ty uuid
  | KeyDown e blockId textContentEmpty uuid =>
      handleBlockKeyDown s e blockId textContentEmpty uuid
  | Focus position =>
      match blocks s !! position with
      | Some block => Next (setActiveBlockId s (Some (id block)))
      | None => Next s
      end
  | CloseMenu => Next (setTargetIndex s (-1))
  end.

Fixpoint run (s : EditorState) (ops : list Op) : Outcome :=
  match ops with
  | [] => Next s
  | op :: ops' =>
      match step s op with
      | Next s' => run s' ops'
      | Stuck f => Stuck f
      end
  end.

Definition ids (s : EditorState) : list string := id <$> blocks s.

(** The identifier an operation draws from [uuidv4()], if any. *)
Definition drawn (op : Op) : option string :=
  match op with
  | AddBlock _ _ uuid | SelectBlockType _ uuid | KeyDown _ _ _ uuid => Some uuid
  | _ => None
  end.

(** Every identifier drawn along the run is new to the blocks present when
    it is drawn. *)
Fixpoint freshIds (s : EditorState) (ops : list Op) : Prop :=
  match ops with
  | [] => True
  | op :: ops' =>
      match drawn op with Some u => u ∉ ids s | None => True end
      /\ match step s op with
         | Next s' => freshIds s' ops'
         | Stuck _ => True
         end
  end.

(** Identifiers are pairwise distinct and the active identifier, when there
    is one, names a block of the sequence. *)
Definition invariant (s : EditorState) : Prop :=
  NoDup (ids s)
  /\ match activeBlockId s with
     | Some a => a ∈ ids s
     | None => True
     end.

(** Positions as the component's own callers supply them. *)
Definition inRange (s : EditorState) (op : Op) : Prop :=
  match op with
  | DeleteBlock index => 0 <= index
  | SelectBlockType _ _ => targetIndex s <= Z.of_nat (length (blocks s))
  | KeyDown _ blockId _ _ => blockId ∈ ids s
  | _ => True
  end.

Definition nonEmpty (s : EditorState) : Prop := blocks s <> [].

Fixpoint inRangeAll (s : EditorState) (ops : list Op) : Prop :=
  match ops with
  | [] => True
  | op :: ops' =>
      inRange s op
      /\ match step s op with
         | Next s' => inRangeAll s' ops'
         | Stuck _ => True
         end
  end.

End BlockEditor.

(** ** JSON values and documents *)

Module Json.

#[warnings="-register-all"]
Inductive json :=
| JNull
| JBool (b : bool)
| JNum (n : Z)
| JStr (s : string)
| JArr (xs : list json)
| JObj (fields : gmap string json).

(** [Array.isArray(v)] and [!v] on the value of a property; an absent
    property reads as [undefined]. *)
Definition isArray (v : option json) : bool :=
  match v with Some (JArr _) => true | _ => false end.

Definition falsy (v : option json) : bool :=
  match v with
  | None | Some JNull | Some (JBool false) | Some (JNum 0) => true
  | Some (JStr s) => String.eqb s ""
  | _ => false
  end.

Import Block.

Definition typeName (ty : BlockType) : string :=
  match ty with
  | text => "text" | heading => "heading" | todo => "todo"
  | table => "table" | image => "image"
  end.

Definition ofContent (c : Content) : json :=
  match c with
  | TextContent s => JStr s
  | HeadingContent t level =>
      JObj (<["text" := JStr t]> (<["level" := JNum level]> ∅))
  | TodoContent t checked =>
      JObj (<["text" := JStr t]> (<["checked" := JBool checked]> ∅))
  | TableContent rows =>
      JObj (<["rows" := JArr ((fun row => JArr (JStr <$> row)) <$> rows)]> ∅)
  | ImageContent src alt caption =>
      let base : gmap string json :=
        <["src" := JStr src]> (<["alt" := JStr alt]> ∅) in
      JObj (match caption with
            | Some c => <["caption" := JStr c]> base
            | None => base
            end)
  end.

(** A block as [JSON.stringify] writes it. *)
Definition ofBlock (b : BlockData) : json :=
  JObj (<["id" := JStr (id b)]>
        (<["type" := JStr (typeName (type b))]>
         (<["content" := ofContent (content b)]> ∅))).

Definition ofBlocks (bs : list BlockData) : json := JArr (ofBlock <$> bs).

End Json.

(** ** The note page (app/note/[id]/page.tsx) *)

Module NotePage.
Import Json.

(** The page state that decides what is saved: the [note] object, and the
    notes handed to [debouncedSave] so far, latest first. *)
Record PageState := {
  note : gmap string json;
  scheduled : list (gmap string json)
}.

(** [useState<Note>({ title: '', content: [] })]. *)
Definition initial : PageState :=
  {| note := <["title" := JStr ""]> (<["content" := JArr []]> ∅);
     scheduled := [] |}.

(** The conversion [fetchNote] applies to the loaded [content]. *)
Definition normalizeContent (noteContent : option json) (uuid : string) : json :=
  match noteContent with
  | Some (JStr text) =>
      ofBlocks [ {| Block.id := uuid; Block.type := Block.text;
                    Block.content := Block.TextContent text |} ]
  | Some (JArr xs) => JArr xs
  | _ => ofBlocks [BlockEditor.emptyTextBlock uuid]
  end.

(** [fetchNote] after a successful response carrying [{note: loaded}]. *)
Definition fetched (s : PageState) (loaded : gmap string json)
    (uuid : string) : PageState :=
  {| note := <["content" := normalizeContent (loaded !! "content") uuid]> loaded;
     scheduled := scheduled s |}.

Definition handleBlocksChange (s : PageState)
    (blocks : list Block.BlockData) : PageState :=
  let updatedNote := <["content" := ofBlocks blocks]> (note s) in
  {| note := updatedNote; scheduled := updatedNote :: scheduled s |}.

Definition handleTitleChange (s : PageState) (v : string) : PageState :=
  {| note := <["title" := JStr v]> (note s); scheduled := scheduled s |}.

Definition handleTitleSave (s : PageState) : PageState :=
  {| note := note s; scheduled := note s :: scheduled s |}.

(** The body of the PUT that [saveNote] sends; [now] is the serialised
    [new Date()]. *)
Definition saveNote (updatedNote : gmap string json) (noteId now : string)
    : gmap string json :=
  <["updatedAt" := JStr now]> (<["_id" := JStr noteId]> updatedNote).

Inductive Event :=
| Fetched (loaded : gmap string json) (uuid : string)
| BlocksChange (blocks : list Block.BlockData)
| TitleChange (v : string)
| TitleSave.

Definition step (s : PageState) (ev : Event) : PageState :=
  match ev with
  | Fetched loaded uuid => fetched s loaded uuid
  | BlocksChange blocks => handleBlocksChange s blocks
  | TitleChange v => handleTitleChange s v
  | TitleSave => handleTitleSave s
  end.

Definition run (evs : list Event) : PageState := foldl step initial evs.

(** A note whose [content] is an array. *)
Definition arrayContent (n : gmap string json) : Prop :=
  isArray (n !! "content") = true.

Definition arrayContents (s : PageState) : Prop :=
  arrayContent (note s) /\ Forall arrayContent (scheduled s).

End NotePage.

(** ** The dashboard (app/page.tsx) *)

Module Dashboard.
Import Json.

(** The body of the POST that [createNewNote] sends. *)
Definition createNewNote (now : string) : gmap string json :=
  <["title" := JStr "Untitled Note"]>
    (<["content" := JStr ""]>
       (<["createdAt" := JStr now]>
          (<["updatedAt" := JStr now]> ∅))).

End Dashboard.

(** ** The route handlers (app/api/notes/route.ts, app/api/notes/[id]/route.ts) *)

Module Api.
Import Json.

(** The database as the handlers meet it: reachable, with the notes
    collection (documents by [_id], each holding its other fields), or
    failing every call. *)
Inductive Database :=
| Up (notes : gmap string (gmap string json))
| Down.

(** Calls made on the collection. *)
Inductive Call :=
| FindOne (oid : string)
| UpdateOne (oid : string) (fields : gmap string json).

Record Response := {
  status : Z;
  payload : gmap string json
}.

Record Handled := {
  response : Response;
  database : Database;
  calls : list Call
}.

Definition failure (code : Z) (message : string) : Response :=
  {| status := code; payload := <["error" := JStr message]> ∅ |}.

Definition success (fields : gmap string json) : Response :=
  {| status := 200; payload := fields |}.

(** MongoDB's [$set] on top-level field names: each given field takes the
    given value and every other field of the document stays; with no field
    given the document stays as it is. *)
Definition applySet (fields doc : gmap string json) : gmap string json :=
  fields ∪ doc.

Section Driver.

(** The driver's [ObjectId]: [ObjectId.isValid(id)] and
    [new ObjectId(v)], which throws on what it does not accept. *)
Variable isValid : string -> bool.
Variable newObjectId : json -> option string.

(** GET /api/notes/[id]. *)
Definition GET_id (db : Database) (id : string) : Handled :=
  if String.eqb id "" || negb (isValid id) then
    {| response := failure 400 "Invalid note ID";
       database := db; calls := [] |}
  else
    match db, newObjectId (JStr id) with
    | Up notes, Some oid =>
        match notes !! oid with
        | Some doc =>
            {| response :=
                 success (<["note" := JObj (<["_id" := JStr oid]> doc)]> ∅);
               database := db; calls := [FindOne oid] |}
        | None =>
            {| response := failure 404 "Note not found";
               database := db; calls := [FindOne oid] |}
        end
    | _, _ =>
        {| response := failure 500 "Failed to fetch note";
           database := db; calls := [] |}
    end.

(** PUT /api/notes with a JSON object as body. *)
Definition PUT (db : Database) (body : gmap string json) : Handled :=
  let _id := body !! "_id" in
  let updateData := delete "_id" body in
  if falsy _id then
    {| response := failure 400 "Note ID is required";
       database := db; calls := [] |}
  else
    match db, _id ≫= newObjectId with
    | Up notes, Some oid =>
        match notes !! oid with
        | Some doc =>
            {| response := success (<["success" := JBool true]> ∅);
               database := Up (<[oid := applySet updateData doc]> notes);
               calls := [UpdateOne oid updateData] |}
        | None =>
            {| response := failure 404 "Note not found";
               database := db;
               calls := [UpdateOne oid updateData] |}
        end
    | _, _ =>
        {| response := failure 500 "Failed to update note";
           database := db; calls := [] |}
    end.

End Driver.

(** The stored document for an identifier. *)
Definition stored (db : Database) (oid : string) : option (gmap string json) :=
  match db with
  | Up notes => notes !! oid
  | Down => None
  end.

(** A 24-digit hexadecimal string, the textual form of an [ObjectId]. *)
Definition isHexDigit (c : ascii) : bool :=
  let n := N_of_ascii c in
  (((48 <=? n) && (n <=? 57)) || ((65 <=? n) && (n <=? 70))
   || ((97 <=? n) && (n <=? 102)))%N.

Definition hex24 (s : string) : bool :=
  (length (list_ascii_of_string s) =? 24)%nat
  && forallb isHexDigit (list_ascii_of_string s).

Definition hexObjectId (v : json) : option string :=
  match v with
  | JStr s => if hex24 s then Some s else None
  | _ => None
  end.

End Api.

(** ** The block renderer (components/blocks/BlockRenderer.tsx) and the
    editor's buttons *)

Module BlockRenderer.
Import Block BlockEditor.

(** What [renderBlock] returns for a block. *)
Inductive Rendered :=
| TextWidget
| TodoWidget
| UnsupportedNotice.

Definition renderBlock (block : BlockData) : Rendered :=
  match type block with
  | text => TextWidget
  | todo => TodoWidget
  | _ => UnsupportedNotice
  end.

Definition supported (block : BlockData) : Prop :=
  renderBlock block <> UnsupportedNotice.

(** The content payload is the one the block's interface declares for its
    type tag. *)
Definition wellShaped (block : BlockData) : Prop :=
  match type block, content block with
  | text, TextContent _
  | heading, HeadingContent _ _
  | todo, TodoContent _ _
  | table, TableContent _
  | image, ImageContent _ _ _ => True
  | _, _ => False
  end.

(** The updates of a run carry blocks that have a widget (the widgets emit
    the block they were given with a new content). *)
Definition updatesSupported (ops : list Op) : Prop :=
  Forall (fun op =>
            match op with
            | UpdateBlock updatedBlock => supported updatedBlock
            | _ => True
            end) ops.

(** [handleAddBlockClick]. *)
Definition handleAddBlockClick (s : EditorState) (uuid : string) : EditorState :=
  addBlock s text (Z.of_nat (length (blocks s)) - 1) uuid.

Definition ShiftEnter : TextBlock.KeyboardEvent :=
  {| TextBlock.key := "Enter"; TextBlock.shiftKey := true |}.

End BlockRenderer.

(** ** The todo block widget (TodoBlock.tsx) *)

Module TodoBlock.
Import Json.

(** The widget's [block] prop is a JavaScript object; [{...block, content: c}]
    is the same object with its [content] field set. *)

(** The own enumerable fields of an array, as an object spread copies them:
    its elements under their indices. *)
Definition arrayFields (xs : list json) : gmap string json :=
  list_to_map (imap (fun i x => (pretty i, x)) xs).

(** [todoContent]: the block's content when it is an object, otherwise
    [{ text: '', checked: false }]. *)
Definition todoContent (block : gmap string json) : gmap string json :=
  match block !! "content" with
  | Some (JObj fields) => fields
  | Some (JArr xs) => arrayFields xs
  | _ => <["text" := JStr ""]> (<["checked" := JBool false]> ∅)
  end.

(** The block passed to [onChange] by [handleTextChange] for the input's new
    value. *)
Definition handleTextChange (block : gmap string json) (v : string)
    : gmap string json :=
  <["content" := JObj (<["text" := JStr v]> (todoContent block))]> block.

(** The block passed to [onChange] by [handleCheckboxChange]. *)
Definition handleCheckboxChange (block : gmap string json) : gmap string json :=
  <["content" :=
      JObj (<["checked" := JBool (falsy (todoContent block !! "checked"))]>
              (todoContent block))]> block.

(** What the checkbox shows: [!!todoContent.checked]. *)
Definition checkedShown (block : gmap string json) : bool :=
  negb (falsy (todoContent block !! "checked")).

(** What the text field shows: [todoContent.text || '']. *)
Definition textShown (block : gmap string json) : option json :=
  if falsy (todoContent block !! "text") then Some (JStr "")
  else todoContent block !! "text".

End TodoBlock.

(** ** The block type menu (components/blocks/BlockMenu.tsx) *)

Module BlockMenu.
Import Block.

(** [c.toLowerCase()] on a code unit below 256: A-Z and the capital letters
    of Latin-1 (U+00C0 to U+00DE without the multiplication sign) move up by
    32. *)
Definition toLowerCaseUnit (c : ascii) : ascii :=
  let n := N_of_ascii c in
  if (((65 <=? n) && (n <=? 90))
      || ((192 <=? n) && (n <=? 222) && negb (n =? 215)))%N
  then ascii_of_N (n + 32) else c.

Definition toLowerCase (s : jsstring) : jsstring := toLowerCaseUnit <$> s.

Fixpoint startsWith (s t : jsstring) {struct t} : bool :=
  match t, s with
  | [], _ => true
  | c :: t', d :: s' => Ascii.eqb c d && startsWith s' t'
  | _ :: _, [] => false
  end.

(** [s.includes(t)]. *)
Fixpoint includes (s t : jsstring) : bool :=
  startsWith s t
  || match s with
     | [] => false
     | _ :: s' => includes s' t
     end.

(** The selectable block types with their labels. *)
Definition blockTypes : list (BlockType * jsstring) :=
  [(text, str "Text"); (todo, str "To-do List")].

Definition filteredBlockTypes (searchQuery : jsstring)
    : list (BlockType * jsstring) :=
  filter (fun block => includes (toLowerCase block.2) (toLowerCase searchQuery) = true)
         blockTypes.

End BlockMenu.

(** ** The dashboard's excerpt (app/page.tsx, getExcerpt) *)

Module Excerpt.
Import Json.

(** The excerpt, or the [TypeError] of reading [.type] of [null]. *)
Inductive Result :=
| Text (t : jsstring)
| Throws.

(** [t] when it has at most [maxLength] code units, otherwise its first
    [maxLength] code units followed by three dots. *)
Definition truncate (t : jsstring) (maxLength : Z) : jsstring :=
  if len t <=? maxLength then t
  else substring t 0 maxLength ++ str "...".

Definition typeIs (block : gmap string json) (name : string) : bool :=
  match block !! "type" with
  | Some (JStr ty) => String.eqb ty name
  | _ => false
  end.

(** [block.content && typeof block.content.text === 'string'], with the
    text. *)
Definition contentText (block : gmap string json) : option string :=
  match block !! "content" with
  | Some (JObj fields) =>
      match fields !! "text" with
      | Some (JStr t) => Some t
      | _ => None
      end
  | _ => None
  end.

(** What one turn of the loop does with an element. *)
Inductive Turn :=
| Break (extractedText : string)
| Continue
| TypeError.

Definition turn (block : json) : Turn :=
  match block with
  | JNull => TypeError
  | JObj fields =>
      match fields !! "content" with
      | Some (JStr c) =>
          if typeIs fields "text" then Break c else Continue
      | _ =>
          if typeIs fields "heading" || typeIs fields "todo" then
            match contentText fields with
            | Some t => Break t
            | None => Continue
            end
          else Continue
      end
  | _ => Continue
  end.

(** The loop over the blocks: [extractedText] at its end, or [None] when it
    throws. *)
Fixpoint extract (blocks : list json) : option string :=
  match blocks with
  | [] => Some ""%string
  | block :: rest =>
      match turn block with
      | Break extractedText => Some extractedText
      | Continue => extract rest
      | TypeError => None
      end
  end.

Definition getExcerpt (content : option json) (maxLength : Z) : Result :=
  if falsy content then Text []
  else
    match content with
    | Some (JStr c) => Text (truncate (str c) maxLength)
    | Some (JArr blocks) =>
        match extract blocks with
        | Some extractedText => Text (truncate (str extractedText) maxLength)
        | None => Throws
        end
    | _ => Text []
    end.

(** The text a typed block offers to the excerpt. *)
Definition textOfBlock (b : Block.BlockData) : option string :=
  match Block.type b, Block.content b with
  | Block.text, Block.TextContent t => Some t
  | (Block.heading | Block.todo), (Block.HeadingContent t _ | Block.TodoContent t _) =>
      Some t
  | _, _ => None
  end.

Fixpoint firstText (bs : list Block.BlockData) : string :=
  match bs with
  | [] => ""
  | b :: rest =>
      match textOfBlock b with
      | Some t => t
      | None => firstText rest
      end
  end.

End Excerpt.

(** ** The other route handlers of /api/notes: list, create, delete *)

Module Routes.
Import Json Api.

(** A stored document as the driver returns it. *)
Definition withId (entry : string * gmap string json) : json :=
  JObj (<["_id" := JStr entry.1]> entry.2).

(** GET /api/notes: [find({}).limit(20).toArray()].  The order in which the
    collection is read is the database's; here it is the order of
    [map_to_list]. *)
Definition GET (db : Database) : Response :=
  match db with
  | Up notes =>
      success (<["collection" := JStr "notes"]>
                 (<["data" := JArr (withId <$> take 20 (map_to_list notes))]> ∅))
  | Down => failure 500 "Failed to fetch notes"
  end.

(** POST /api/notes with a JSON object as body that has no [_id] of its own
    ([undefined] or [null]): [insertOne] stores it under the identifier the
    driver generates, [generated].  A body that brings an [_id] is stored
    under that value instead of an [ObjectId]: [None]. *)
Definition POST (db : Database) (body : gmap string json) (generated : string)
    : option (Response * Database) :=
  match body !! "_id" with
  | None | Some JNull =>
      Some
        match db with
        | Up notes =>
            match notes !! generated with
            | None =>
                (success (<["success" := JBool true]>
                            (<["id" := JStr generated]> ∅)),
                 Up (<[generated := delete "_id" body]> notes))
            | Some _ => (failure 500 "Failed to create note", db)
            end
        | Down => (failure 500 "Failed to create note", db)
        end
  | Some _ => None
  end.

Section Driver.

Variable newObjectId : json -> option string.

(** DELETE /api/notes?id=...; [id] is [searchParams.get('id')]. *)
Definition DELETE (db : Database) (id : option string) : Response * Database :=
  match id with
  | None => (failure 400 "Note ID is required", db)
  | Some id' =>
      if String.eqb id' "" then (failure 400 "Note ID is required", db)
      else
        match db, newObjectId (JStr id') with
        | Up notes, Some oid =>
            match notes !! oid with
            | Some _ =>
                (success (<["success" := JBool true]> ∅), Up (delete oid notes))
            | None => (failure 404 "Note not found", db)
            end
        | _, _ => (failure 500 "Failed to delete note", db)
        end
  end.

End Driver.

End Routes.

(** ** The note page's debounced save (app/note/[id]/page.tsx) *)

Module AutoSave.
Import Json.

(** The timer cell [saveTimeoutRef.current], the timeouts that are set and
    have neither fired nor been cleared (each with the note its callback
    will save), the next timeout identifier, and the notes given to
    [saveNote] so far, latest first.  When a timeout fires is up to the
    runtime. *)
Record State := {
  saveTimeoutRef : option nat;
  timers : gmap nat (gmap string json);
  nextTimeout : nat;
  sent : list (gmap string json)
}.

Definition initial : State :=
  {| saveTimeoutRef := None; timers := ∅; nextTimeout := 1; sent := [] |}.

(** [debouncedSave(updatedNote)]: clear the timeout in the cell, if any, and
    set a new one. *)
Definition debouncedSave (st : State) (updatedNote : gmap string json) : State :=
  let cleared :=
    match saveTimeoutRef st with
    | Some timeout => delete timeout (timers st)
    | None => timers st
    end in
  {| saveTimeoutRef := Some (nextTimeout st);
     timers := <[nextTimeout st := updatedNote]> cleared;
     nextTimeout := S (nextTimeout st);
     sent := sent st |}.

(** The runtime fires timeout [timeout]: its callback calls [saveNote]. *)
Definition fire (st : State) (timeout : nat) : State :=
  match timers st !! timeout with
  | Some updatedNote =>
      {| saveTimeoutRef := saveTimeoutRef st;
         timers := delete timeout (timers st);
         nextTimeout := nextTimeout st;
         sent := updatedNote :: sent st |}
  | None => st
  end.

Inductive Event :=
| Save (updatedNote : gmap string json)
| Fire (timeout : nat).

Definition step (st : State) (ev : Event) : State :=
  match ev with
  | Save updatedNote => debouncedSave st updatedNote
  | Fire timeout => fire st timeout
  end.

Definition run (evs : list Event) : State := foldl step initial evs.

(** The notes handed to [debouncedSave], in order. *)
Definition saves (evs : list Event) : list (gmap string json) :=
  omap (fun ev => match ev with Save n => Some n | Fire _ => None end) evs.

(** Either no timeout is pending, or exactly one is, the one in the cell,
    and it carries the latest note saved; what was sent before came from the
    earlier saves, in order. *)
Definition settled (st : State) (saved : list (gmap string json)) : Prop :=
  (timers st = ∅ /\ reverse (sent st) `sublist_of` saved)
  \/ exists timeout n earlier,
       timers st = {[timeout := n]}
       /\ saveTimeoutRef st = Some timeout
       /\ saved = earlier ++ [n]
       /\ reverse (sent st) `sublist_of` earlier.

End AutoSave.

(** ** Facts about the string primitives *)

Section StringFacts.

Implicit Types s t l : jsstring.

(** The primitives on the examples their documentation gives. *)
Example substring_swaps : substring (str "Mozilla") 4 1 = str "ozi".
Proof. reflexivity. Qed.

Example lastIndexOf_canal :
  lastIndexOf (str "canal") "a" 2 = 1
  /\ lastIndexOf (str "canal") "a" 0 = -1
  /\ lastIndexOf (str "canal") "c" (-5) = 0
  /\ lastIndexOf (str "canal") "x" 4 = -1.
Proof. repeat split. Qed.

Example trimStart_hello :
  trimStart (str "   Hello world!   ") = str "Hello world!   ".
Proof. reflexivity. Qed.

Lemma len_app s t : len (s ++ t) = len s + len t.
Proof. unfold len. rewrite length_app. lia. Qed.

Lemma len_nonneg s : 0 <= len s.
Proof. unfold len. lia. Qed.

Lemma len_spaces n : 0 <= n -> len (spaces n) = n.
Proof. intros Hn. unfold len, spaces. rewrite length_replicate. lia. Qed.

Lemma spaces_add n m : 0 <= n -> 0 <= m -> spaces (n + m) = spaces n ++ spaces m.
Proof.
  intros Hn Hm. unfold spaces.
  rewrite Z2Nat.inj_add by lia. apply replicate_add.
Qed.

Lemma clamp_in_range s i : 0 <= i <= len s -> clamp s i = Z.to_nat i.
Proof. intros Hi. unfold clamp. f_equal. lia. Qed.

Lemma substring_in_range s (a b : nat) :
  (a <= b <= length s)%nat ->
  substring s (Z.of_nat a) (Z.of_nat b) = take (b - a) (drop a s).
Proof.
  intros Hab. unfold substring.
  rewrite !clamp_in_range by (unfold len; lia).
  rewrite !Nat2Z.id, Nat.min_l, Nat.max_r by lia.
  reflexivity.
Qed.

Lemma substring_prefix s t : substring (s ++ t) 0 (len s) = s.
Proof.
  change 0 with (Z.of_nat 0). unfold len.
  rewrite substring_in_range by (rewrite length_app; lia).
  rewrite Nat.sub_0_r. apply take_app_length.
Qed.

Lemma substringFrom_suffix s t : substringFrom (s ++ t) (len s) = t.
Proof.
  unfold substringFrom, len.
  rewrite substring_in_range by (rewrite length_app; lia).
  rewrite drop_app_length. apply take_ge. rewrite length_app. lia.
Qed.

Lemma substring_middle s t u :
  substring (s ++ t ++ u) (len s) (len s + len t) = t.
Proof.
  unfold len. rewrite <- Nat2Z.inj_add.
  rewrite substring_in_range by (rewrite !length_app; lia).
  rewrite drop_app_length.
  replace (length s + length t - length s)%nat with (length t) by lia.
  apply take_app_length.
Qed.

Lemma last_index_lower c l : -1 <= last_index c l.
Proof.
  induction l as [|x l IH]; simpl; [lia|].
  destruct (0 <=? last_index c l) eqn:E; [lia|].
  destruct (Ascii.eqb x c); lia.
Qed.

Lemma last_index_app c l1 l2 :
  last_index c (l1 ++ l2) =
    if 0 <=? last_index c l2 then len l1 + last_index c l2
    else last_index c l1.
Proof.
  induction l1 as [|x l1 IH]; simpl.
  - pose proof (last_index_lower c l2).
    destruct (0 <=? last_index c l2) eqn:E; unfold len; simpl; lia.
  - rewrite IH. unfold len. simpl length.
    destruct (0 <=? last_index c l2) eqn:E.
    + replace (0 <=? Z.of_nat (length l1) + last_index c l2) with true
        by (symmetry; apply Z.leb_le; lia).
      lia.
    + reflexivity.
Qed.

Lemma last_index_absent c l : c ∉ l -> last_index c l = -1.
Proof.
  induction l as [|x l IH]; simpl; [reflexivity|].
  intros Hc. rewrite not_elem_of_cons in Hc. destruct Hc as [Hx Hl].
  rewrite (IH Hl). simpl.
  destruct (Ascii.eqb_spec x c); congruence.
Qed.

Lemma last_index_snoc c l : last_index c (l ++ [c]) = len l.
Proof.
  rewrite last_index_app. simpl. rewrite Ascii.eqb_refl. simpl. lia.
Qed.

Lemma newline_not_in_spaces n : TextBlock.newline ∉ spaces n.
Proof.
  unfold spaces. intros Hin. apply elem_of_replicate in Hin.
  destruct Hin as [Heq _]. discriminate Heq.
Qed.

Lemma endsWith_app s t : endsWith (s ++ t) t = true.
Proof.
  unfold endsWith. rewrite length_app.
  apply andb_true_iff. split.
  - apply Nat.leb_le. lia.
  - replace (length s + length t - length t)%nat with (length s) by lia.
    rewrite drop_app_length. unfold JS.eqb. by apply bool_decide_eq_true.
Qed.

End StringFacts.

(** ** The text block: Tab, Shift+Tab and Backspace *)

Section TextBlockFacts.
Import TextBlock.

Implicit Types pre mid post : jsstring.

Lemma last_index_boundary pre :
  lineBoundary pre -> last_index newline pre = len pre - 1.
Proof.
  intros [-> | [p ->]]; [reflexivity|].
  rewrite last_index_snoc, len_app. unfold len. simpl. lia.
Qed.

(** The handler's [lineStart] is the start of the cursor's line, except
    with the cursor at position 0 of a content that begins with a newline
    (there [lastIndexOf] is asked for position -1 and looks at index 0). *)
Lemma lineStart_spec pre mid post :
  lineBoundary pre -> newline ∉ mid ->
  pre ++ mid <> [] \/ head post <> Some newline ->
  lastIndexOf (pre ++ mid ++ post) newline (len pre + len mid - 1) + 1 = len pre.
Proof.
  intros Hpre Hmid Hcase. unfold lastIndexOf.
  destruct (decide (pre ++ mid = [])) as [Hnil | Hne].
  - apply app_eq_nil in Hnil as [-> ->]. simpl.
    destruct Hcase as [Hc | Hc]; [done|].
    destruct post as [|c post]; [reflexivity|]. simpl.
    destruct (Ascii.eqb_spec c newline) as [-> | _]; [|reflexivity].
    by destruct Hc.
  - assert (0 < len pre + len mid) as Hpos.
    { rewrite <- len_app. unfold len.
      destruct (pre ++ mid); [done | simpl; lia]. }
    replace (S (Z.to_nat (Z.max (len pre + len mid - 1) 0)))
      with (length (pre ++ mid))
      by (rewrite length_app; unfold len in *; lia).
    rewrite app_assoc, take_app_length.
    rewrite last_index_app, (last_index_absent _ mid Hmid). simpl.
    rewrite last_index_boundary by done. lia.
Qed.

(** C3, as the code has it: Backspace at position 4 of ["    x"] removes
    one indent width, leaving ["  x"] with the cursor at position 2. *)
Theorem backspace_four_spaces_removes_one_indent :
  handleKeyDown (cursorAt (str "    x") 4) Backspace
    = {| defaultPrevented := true; changed := Some (str "  x");
         caret := Some 2; delegated := false |}
  /\ press (cursorAt (str "    x") 4) Backspace = cursorAt (str "  x") 2.
Proof. split; reflexivity. Qed.

(** C3, as stated, fails: the four spaces are not all deleted. *)
Lemma backspace_four_spaces_not_all_removed :
  press (cursorAt (str "    x") 4) Backspace <> cursorAt (str "x") 0.
Proof. discriminate. Qed.

(** C4: Backspace with a collapsed cursor right after a run of [n] spaces
    that starts at the line's start, with [n] at least the indent width and
    a multiple of it, suppresses the default, deletes the last two spaces of
    the run and moves the cursor back by two. *)
Theorem backspace_removes_one_indent pre post n :
  lineBoundary pre -> TAB_SIZE <= n -> n mod TAB_SIZE = 0 ->
  handleKeyDown (cursorAt (pre ++ spaces n ++ post) (len pre + n)) Backspace
    = {| defaultPrevented := true;
         changed := Some (pre ++ spaces (n - TAB_SIZE) ++ post);
         caret := Some (len pre + n - TAB_SIZE);
         delegated := false |}.
Proof.
  intros Hpre Hn Hmod. unfold TAB_SIZE in *.
  assert (spaces n = spaces (n - 2) ++ spaces 2) as Hsplit.
  { rewrite <- spaces_add by lia. f_equal. lia. }
  assert (len (spaces n) = n) as Hlen by (apply len_spaces; lia).
  unfold handleKeyDown, cursorAt. cbn [value selectionStart selectionEnd].
  change (String.eqb (key Backspace) "Tab") with false.
  change (String.eqb (key Backspace) "Backspace") with true.
  cbn match. rewrite Z.eqb_refl. cbn [andb].
  assert (lastIndexOf (pre ++ spaces n ++ post) newline (len pre + n - 1) + 1
          = len pre) as ->.
  { replace (len pre + n - 1) with (len pre + len (spaces n) - 1) by lia.
    apply lineStart_spec; [done | apply newline_not_in_spaces |].
    left. intros Hnil. apply app_eq_nil in Hnil as [_ Hnil].
    apply (f_equal len) in Hnil. rewrite Hlen in Hnil. unfold len in Hnil.
    simpl in Hnil. lia. }
  assert (substring (pre ++ spaces n ++ post) (len pre) (len pre + n)
          = spaces n) as ->.
  { replace (len pre + n) with (len pre + len (spaces n)) by lia.
    apply substring_middle. }
  rewrite Hlen.
  replace (TAB_SIZE <=? n) with true by (symmetry; apply Z.leb_le; done).
  rewrite Hsplit at 1. rewrite endsWith_app.
  replace (len pre + n - len pre) with n by lia.
  rewrite Z.rem_mod_nonneg by (unfold TAB_SIZE; lia).
  unfold TAB_SIZE. rewrite Hmod. rewrite orb_true_r. cbn [andb].
  f_equal. f_equal.
  assert (substringFrom (pre ++ spaces n ++ post) (len pre + n) = post) as ->.
  { replace (len pre + n) with (len (pre ++ spaces n))
      by (rewrite len_app; lia).
    rewrite app_assoc. apply substringFrom_suffix. }
  rewrite Hsplit, <- app_assoc.
  rewrite (app_assoc pre).
  replace (len pre + n - 2) with (len (pre ++ spaces (n - 2)))
    by (rewrite len_app, len_spaces; lia).
  rewrite substring_prefix, <- app_assoc. reflexivity.
Qed.

Lemma backspace_removes_one_indent_witness :
  lineBoundary (str "a" ++ [newline]) /\ TAB_SIZE <= 4 /\ 4 mod TAB_SIZE = 0
  /\ handleKeyDown (cursorAt (str "a" ++ [newline] ++ spaces 4 ++ str "b") 6)
       Backspace
     = {| defaultPrevented := true;
          changed := Some (str "a" ++ [newline] ++ spaces 2 ++ str "b");
          caret := Some 4; delegated := false |}.
Proof.
  assert (lineBoundary (str "a" ++ [newline])) as Hb
    by (right; exists (str "a"); reflexivity).
  assert (TAB_SIZE <= 4) as Hn by (unfold TAB_SIZE; lia).
  assert (4 mod TAB_SIZE = 0) as Hm by reflexivity.
  split; [exact Hb|]. split; [exact Hn|]. split; [exact Hm|].
  exact (backspace_removes_one_indent (str "a" ++ [newline]) (str "b") 4
           Hb Hn Hm).
Defined.

(** C5: Tab on an empty text field gives exactly two spaces with the cursor
    at position 2, and Shift+Tab then removes them: the field is empty
    again, with the cursor at position 0. *)
Theorem tab_then_shift_tab_round_trip :
  press (cursorAt [] 0) Tab = cursorAt (str "  ") 2
  /\ press (press (cursorAt [] 0) Tab) ShiftTab = cursorAt [] 0.
Proof. split; reflexivity. Qed.

Lemma trimStart_noLeadingWhiteSpace rest :
  noLeadingWhiteSpace rest -> trimStart rest = rest.
Proof. destruct rest as [|c rest]; simpl; [done|]. by intros ->. Qed.

(** C6, as the code has it: when the part of the current line before the
    cursor begins with [k <= 1] spaces followed by no further white space,
    Shift+Tab removes those [k] spaces and moves the cursor back by [k].
    With [k = 0] nothing changes; with exactly one leading space that space
    is removed.  (The cursor at position 0 of a content that begins with a
    newline is left out.) *)
Theorem shift_tab_at_most_one_leading_space pre rest post k :
  lineBoundary pre -> newline ∉ rest -> noLeadingWhiteSpace rest ->
  k = 0 \/ k = 1 ->
  pre ++ spaces k ++ rest <> [] \/ head post <> Some newline ->
  press (cursorAt (pre ++ spaces k ++ rest ++ post) (len pre + k + len rest))
        ShiftTab
    = cursorAt (pre ++ rest ++ post) (len pre + len rest).
Proof.
  intros Hpre Hrest Hws Hk Hcase.
  assert (0 <= k) as Hk0 by lia.
  pose proof (len_nonneg pre) as Hlp. pose proof (len_nonneg rest) as Hlr.
  set (mid := spaces k ++ rest).
  assert (len mid = k + len rest) as Hmid
    by (unfold mid; rewrite len_app, len_spaces; lia).
  assert (newline ∉ mid) as Hnl.
  { unfold mid. rewrite elem_of_app. intros [H | H]; [|done].
    by apply newline_not_in_spaces in H. }
  assert (trimStart mid = rest) as Htrim.
  { unfold mid. destruct Hk as [-> | ->]; simpl;
      by apply trimStart_noLeadingWhiteSpace. }
  unfold press, handleKeyDown, cursorAt.
  cbn [value selectionStart selectionEnd].
  change (String.eqb (key ShiftTab) "Tab") with true.
  change (negb (shiftKey ShiftTab)) with false. cbn match.
  rewrite (app_assoc (spaces k) rest post). fold mid.
  assert (lastIndexOf (pre ++ mid ++ post) newline (len pre + k + len rest - 1) + 1
          = len pre) as ->.
  { replace (len pre + k + len rest - 1) with (len pre + len mid - 1) by lia.
    apply lineStart_spec; [done | done |].
    destruct Hcase as [Hc | Hc]; [left; exact Hc | by right]. }
  assert (substring (pre ++ mid ++ post) (len pre) (len pre + k + len rest)
          = mid) as ->.
  { replace (len pre + k + len rest) with (len pre + len mid) by lia.
    apply substring_middle. }
  rewrite Htrim, Hmid.
  replace (k + len rest - len rest) with k by lia.
  destruct Hk as [-> | ->].
  - change (Z.min TAB_SIZE 0) with 0. change (0 <? 0) with false. cbn match.
    unfold settle, mid. simpl. f_equal; lia.
  - change (Z.min TAB_SIZE 1) with 1. change (0 <? 1) with true. cbn match.
    unfold settle.
    cbn [changed caret default value selectionStart selectionEnd].
    rewrite substring_prefix.
    assert (substringFrom mid 1 = rest) as ->.
    { unfold mid. change 1 with (len (spaces 1)).
      apply substringFrom_suffix. }
    assert (substringFrom (pre ++ mid ++ post) (len pre + 1 + len rest) = post)
      as ->.
    { replace (len pre + 1 + len rest) with (len (pre ++ mid))
        by (rewrite len_app; lia).
      rewrite app_assoc. apply substringFrom_suffix. }
    unfold cursorAt, id. f_equal; lia.
Qed.

Lemma shift_tab_at_most_one_leading_space_witness :
  lineBoundary [] /\ (newline ∉ str "x") /\ noLeadingWhiteSpace (str "x")
  /\ (1 = 0 \/ 1 = 1)
  /\ ([] ++ spaces 1 ++ str "x" <> [] \/ head [] <> Some newline)
  /\ press (cursorAt (str " x") 2) ShiftTab = cursorAt (str "x") 1.
Proof.
  assert (lineBoundary []) as H1 by (left; reflexivity).
  assert (newline ∉ str "x") as H2.
  { intros H. apply list_elem_of_singleton in H. discriminate H. }
  assert (noLeadingWhiteSpace (str "x")) as H3 by reflexivity.
  assert (1 = 0 \/ 1 = 1) as H4 by (right; reflexivity).
  assert ([] ++ spaces 1 ++ str "x" <> [] \/ head [] <> Some newline) as H5
    by (left; discriminate).
  split; [exact H1|]. split; [exact H2|]. split; [exact H3|].
  split; [exact H4|]. split; [exact H5|].
  exact (shift_tab_at_most_one_leading_space [] (str "x") [] 1
           H1 H2 H3 H4 H5).
Defined.

(** With the cursor at position 0 of a content that begins with a newline,
    [lineStart] is 1 and the arguments of [substring] are swapped: Shift+Tab
    then puts one more newline in front. *)
Example shift_tab_before_leading_newline :
  press (cursorAt (newline :: str "ab") 0) ShiftTab
    = cursorAt (newline :: newline :: str "ab") 1.
Proof. reflexivity. Qed.

(** C6, as stated, fails: with exactly one leading space before the cursor
    the line does not begin with a full indent-width run of spaces, yet
    Shift+Tab changes both the content and the cursor. *)
Lemma shift_tab_one_leading_space_is_not_a_noop :
  take (Z.to_nat TAB_SIZE) (str " x") <> spaces TAB_SIZE
  /\ press (cursorAt (str " x") 2) ShiftTab = cursorAt (str "x") 1
  /\ press (cursorAt (str " x") 2) ShiftTab <> cursorAt (str " x") 2.
Proof. split; [discriminate|]. split; [reflexivity | discriminate]. Qed.

End TextBlockFacts.

(** ** Arrays: splice, indexed reads and writes *)

Section ArrayFacts.
Context {A B : Type}.
Implicit Types a : list A.

Example splice_positions :
  JSArray.spliceInsert [1; 2; 3] 1 9 = [1; 9; 2; 3]
  /\ JSArray.spliceInsert [1; 2; 3] 7 9 = [1; 2; 3; 9]
  /\ JSArray.spliceInsert [1; 2; 3] (-1) 9 = [1; 2; 9; 3]
  /\ JSArray.spliceDelete [1; 2; 3] 1 = [1; 3]
  /\ JSArray.spliceDelete [1; 2; 3] 3 = [1; 2; 3]
  /\ JSArray.spliceDelete [1; 2; 3] (-1) = [1; 2].
Proof. repeat split. Qed.

Lemma get_Some a i x :
  JSArray.get a i = Some x <-> 0 <= i /\ a !! Z.to_nat i = Some x.
Proof.
  unfold JSArray.get. destruct (Z.ltb_spec i 0); split.
  - done.
  - intros [? _]. lia.
  - by intros.
  - by intros [_ ?].
Qed.

Lemma spliceStart_fmap (f : A -> B) a start :
  JSArray.spliceStart (f <$> a) start = JSArray.spliceStart a start.
Proof. unfold JSArray.spliceStart. by rewrite length_fmap. Qed.

Lemma spliceInsert_fmap (f : A -> B) a start x :
  f <$> JSArray.spliceInsert a start x
    = JSArray.spliceInsert (f <$> a) start (f x).
Proof.
  unfold JSArray.spliceInsert. rewrite spliceStart_fmap.
  by rewrite fmap_app, fmap_cons, fmap_take, fmap_drop.
Qed.

Lemma spliceDelete_fmap (f : A -> B) a start :
  f <$> JSArray.spliceDelete a start = JSArray.spliceDelete (f <$> a) start.
Proof.
  unfold JSArray.spliceDelete. rewrite spliceStart_fmap.
  by rewrite fmap_app, fmap_take, fmap_drop.
Qed.

Lemma spliceInsert_Permutation a start x :
  JSArray.spliceInsert a start x ≡ₚ x :: a.
Proof.
  unfold JSArray.spliceInsert.
  rewrite <- Permutation_middle. by rewrite take_drop.
Qed.

Lemma spliceDelete_sublist a start :
  JSArray.spliceDelete a start `sublist_of` a.
Proof.
  unfold JSArray.spliceDelete.
  set (k := JSArray.spliceStart a start).
  rewrite <- (take_drop k a) at 3.
  apply sublist_app; [done|].
  replace (S k) with (k + 1)%nat by lia.
  rewrite <- (drop_drop a 1 k). apply sublist_drop.
Qed.

Lemma spliceDelete_keeps_before a i j x :
  0 <= j < i -> JSArray.get a j = Some x -> x ∈ JSArray.spliceDelete a i.
Proof.
  intros Hj [_ Hx]%get_Some.
  pose proof (lookup_lt_Some _ _ _ Hx) as Hlt.
  unfold JSArray.spliceDelete, JSArray.spliceStart.
  destruct (Z.ltb_spec i 0); [lia|].
  apply elem_of_app. left. apply elem_of_take.
  exists (Z.to_nat j). split; [done | lia].
Qed.

Lemma spliceDelete_length a start :
  (length a - 1 <= length (JSArray.spliceDelete a start))%nat.
Proof.
  unfold JSArray.spliceDelete.
  rewrite length_app, length_take, length_drop. lia.
Qed.

Lemma get_elem_of a i x : JSArray.get a i = Some x -> x ∈ a.
Proof.
  intros [_ H]%get_Some. by eapply list_elem_of_lookup_2.
Qed.

Lemma get_in_range a i :
  0 <= i < Z.of_nat (length a) -> is_Some (JSArray.get a i).
Proof.
  intros Hi. unfold JSArray.get.
  destruct (Z.ltb_spec i 0); [lia|].
  apply lookup_lt_is_Some_2. lia.
Qed.

Lemma get_fmap (f : A -> B) a i :
  JSArray.get (f <$> a) i = f <$> JSArray.get a i.
Proof.
  unfold JSArray.get. destruct (i <? 0); [done|]. apply list_lookup_fmap.
Qed.

Lemma set_Some a i x a' :
  JSArray.set a i x = Some a' ->
  (i <= length a)%nat /\ a' = take i a ++ x :: drop (S i) a.
Proof.
  unfold JSArray.set.
  destruct (Nat.ltb_spec i (length a)).
  - intros [= <-]. split; [lia|]. by apply insert_take_drop.
  - destruct (Nat.eqb_spec i (length a)) as [-> | ?]; [|done].
    intros [= <-]. split; [lia|].
    rewrite take_ge, drop_ge by lia. done.
Qed.

Lemma set_in_range a i x : (i <= length a)%nat -> is_Some (JSArray.set a i x).
Proof.
  intros Hi. unfold JSArray.set.
  destruct (Nat.ltb_spec i (length a)); [by eexists|].
  destruct (Nat.eqb_spec i (length a)); [by eexists | lia].
Qed.

Lemma findIndex_lower (p : A -> bool) a : -1 <= JSArray.findIndex p a.
Proof.
  induction a as [|x a IH]; simpl; [lia|].
  destruct (p x); [lia|].
  destruct (Z.ltb_spec (JSArray.findIndex p a) 0); lia.
Qed.

Lemma findIndex_found (p : A -> bool) a :
  (exists x, x ∈ a /\ p x = true) ->
  0 <= JSArray.findIndex p a < Z.of_nat (length a).
Proof.
  induction a as [|y a IH]; intros (x & Hx & Hp).
  - by apply elem_of_nil in Hx.
  - simpl. destruct (p y) eqn:Hy; [lia|].
    apply elem_of_cons in Hx as [-> | Hx]; [congruence|].
    specialize (IH (ex_intro _ x (conj Hx Hp))).
    destruct (Z.ltb_spec (JSArray.findIndex p a) 0); lia.
Qed.

End ArrayFacts.

(** ** The block editor: identifiers and the active block *)

Section EditorFacts.
Import Block BlockEditor.

Implicit Types s : EditorState.

Lemma createBlock_id ty index uuid : id (createBlock ty index uuid) = uuid.
Proof. by destruct ty. Qed.

Lemma ids_addBlock s ty index uuid :
  ids (addBlock s ty index uuid)
    = JSArray.spliceInsert (ids s) (index + 1) uuid.
Proof.
  unfold ids, addBlock. simpl.
  by rewrite spliceInsert_fmap, createBlock_id.
Qed.

Lemma ids_updateBlock s updatedBlock :
  ids (updateBlock s updatedBlock) = ids s.
Proof.
  unfold ids, updateBlock. simpl.
  rewrite <- list_fmap_compose. apply list_fmap_ext.
  intros _ block _. simpl.
  destruct (String.eqb_spec (id block) (id updatedBlock)); congruence.
Qed.

Lemma block_id_elem_of (b : BlockData) (bs : list BlockData) :
  b ∈ bs -> id b ∈ id <$> bs.
Proof. apply list_elem_of_fmap_2. Qed.

Lemma addBlock_invariant s ty index uuid :
  uuid ∉ ids s -> invariant s -> invariant (addBlock s ty index uuid).
Proof.
  intros Hfresh [Hnd _]. unfold invariant.
  rewrite ids_addBlock. simpl. rewrite createBlock_id.
  rewrite spliceInsert_Permutation. split.
  - by apply NoDup_cons.
  - apply elem_of_cons. by left.
Qed.

Lemma deleteBlock_blocks s index s' :
  deleteBlock s index = Next s' ->
  s' = s \/ blocks s' = JSArray.spliceDelete (blocks s) index
            /\ exists b, b ∈ blocks s' /\ activeBlockId s' = Some (id b).
Proof.
  unfold deleteBlock.
  destruct (length (blocks s) =? 1)%nat; [intros [= <-]; by left|].
  destruct (JSArray.get _ _) as [b|] eqn:Hget; [|done].
  intros [= <-]. right. simpl. split; [done|].
  exists b. split; [by eapply get_elem_of | done].
Qed.

Lemma deleteBlock_invariant s index s' :
  deleteBlock s index = Next s' -> invariant s -> invariant s'.
Proof.
  intros [-> | (Hblocks & b & Hb & Hactive)]%deleteBlock_blocks Hinv; [done|].
  destruct Hinv as [Hnd _]. unfold invariant, ids.
  rewrite Hactive. split; [|by apply block_id_elem_of].
  rewrite Hblocks, spliceDelete_fmap.
  eapply sublist_NoDup; [done | apply spliceDelete_sublist].
Qed.

Lemma updateBlock_invariant s updatedBlock :
  invariant s -> invariant (updateBlock s updatedBlock).
Proof. unfold invariant. by rewrite ids_updateBlock. Qed.

Lemma handleSelectBlockType_invariant s ty uuid s' :
  handleSelectBlockType s ty uuid = Next s' ->
  uuid ∉ ids s -> invariant s -> invariant s'.
Proof.
  unfold handleSelectBlockType.
  destruct (0 <=? targetIndex s); [|by intros [= <-]].
  destruct (JSArray.set _ _ _) as [updatedBlocks|] eqn:Hset; [|done].
  intros [= <-] Hfresh [Hnd _].
  apply set_Some in Hset as [_ ->].
  unfold invariant, ids. simpl.
  rewrite createBlock_id, fmap_app, fmap_cons, createBlock_id.
  rewrite <- Permutation_middle. split; [|apply elem_of_cons; by left].
  rewrite fmap_take, fmap_drop.
  assert (take (Z.to_nat (targetIndex s)) (ids s)
            ++ drop (S (Z.to_nat (targetIndex s))) (ids s)
          `sublist_of` ids s) as Hsub.
  { rewrite <- (take_drop (Z.to_nat (targetIndex s)) (ids s)) at 3.
    apply sublist_app; [done|].
    replace (S (Z.to_nat (targetIndex s)))
      with (Z.to_nat (targetIndex s) + 1)%nat by lia.
    rewrite <- drop_drop. apply sublist_drop. }
  apply NoDup_cons. split.
  - intros Hin. apply Hfresh. by eapply elem_of_sublist.
  - by eapply sublist_NoDup.
Qed.

Lemma setActiveBlockId_invariant s (b : BlockData) :
  b ∈ blocks s -> invariant s -> invariant (setActiveBlockId s (Some (id b))).
Proof.
  intros Hb [Hnd _]. split; [done|]. simpl. by apply block_id_elem_of.
Qed.

Lemma setTargetIndex_invariant s i :
  invariant s -> invariant (setTargetIndex s i).
Proof. done. Qed.

Lemma handleBlockKeyDown_invariant s e blockId textContentEmpty uuid s' :
  handleBlockKeyDown s e blockId textContentEmpty uuid = Next s' ->
  uuid ∉ ids s -> invariant s -> invariant s'.
Proof.
  unfold handleBlockKeyDown.
  set (currentIndex := JSArray.findIndex _ _).
  intros Hstep Hfresh Hinv.
  destruct (String.eqb (TextBlock.key e) "Enter" && TextBlock.shiftKey e).
  { injection Hstep as <-. by apply addBlock_invariant. }
  destruct (String.eqb (TextBlock.key e) "Backspace").
  { destruct (JSArray.get (blocks s) currentIndex) as [currentBlock|] eqn:Hcur;
      [|done].
    destruct (isEmptyText currentBlock && (1 <? length (blocks s))%nat);
      [|by injection Hstep as <-].
    destruct (deleteBlock s currentIndex) as [s1|] eqn:Hdel; [|done].
    pose proof (deleteBlock_invariant _ _ _ Hdel Hinv) as Hinv1.
    destruct (Z.ltb_spec 0 currentIndex) as [Hpos|_];
      [|by injection Hstep as <-].
    destruct (JSArray.get (blocks s) (currentIndex - 1)) as [previous|] eqn:Hprev;
      [|done].
    injection Hstep as <-.
    apply setActiveBlockId_invariant; [|done].
    apply deleteBlock_blocks in Hdel as [-> | [-> _]].
    - by eapply get_elem_of.
    - eapply spliceDelete_keeps_before; [|done]. lia. }
  destruct (String.eqb (TextBlock.key e) "/"); [|by injection Hstep as <-].
  destruct (JSArray.get (blocks s) currentIndex) as [currentBlock|]; [|done].
  destruct (isEmptyText currentBlock || textContentEmpty);
    by injection Hstep as <-.
Qed.

Lemma step_invariant s op s' :
  step s op = Next s' ->
  match drawn op with Some u => u ∉ ids s | None => True end ->
  invariant s -> invariant s'.
Proof.
  destruct op as [ty index uuid | index | b | ty uuid | e blockId empty uuid
                 | position | ]; simpl; intros Hstep Hfresh Hinv.
  - injection Hstep as <-. by apply addBlock_invariant.
  - by eapply deleteBlock_invariant.
  - injection Hstep as <-. by apply updateBlock_invariant.
  - by eapply handleSelectBlockType_invariant.
  - by eapply handleBlockKeyDown_invariant.
  - destruct (blocks s !! position) as [block|] eqn:Hblock;
      injection Hstep as <-; [|done].
    apply setActiveBlockId_invariant; [|done].
    by eapply list_elem_of_lookup_2.
  - by injection Hstep as <-.
Qed.

Lemma init_invariant initialBlocks uuid :
  NoDup (id <$> initialBlocks) -> invariant (init initialBlocks uuid).
Proof.
  intros Hnd. unfold init.
  destruct initialBlocks as [|b bs]; simpl.
  - split; [apply NoDup_singleton | apply list_elem_of_here].
  - split; [done | apply list_elem_of_here].
Qed.

(** C1: from a state whose block identifiers are pairwise distinct and
    whose active identifier is null or names a present block, every run of
    editor operations (insert, delete by position, update by identifier,
    replace the menu-targeted block, and the key, focus and menu events
    that call them) whose drawn identifiers are fresh ends in a state with
    pairwise distinct identifiers and an active identifier that is null or
    names a present block. *)
Theorem identifiers_distinct_and_active_present s ops s' :
  invariant s -> freshIds s ops -> run s ops = Next s' -> invariant s'.
Proof.
  revert s. induction ops as [|op ops IH]; simpl; intros s Hinv Hfresh Hrun.
  - by injection Hrun as <-.
  - destruct Hfresh as [Hdrawn Hrest].
    destruct (step s op) as [s1|] eqn:Hstep; [|done].
    apply (IH s1); [|done..].
    by eapply step_invariant.
Qed.

(** The invariant also holds after every prefix of a run. *)
Lemma freshIds_app s ops1 ops2 :
  freshIds s (ops1 ++ ops2) -> freshIds s ops1.
Proof.
  revert s. induction ops1 as [|op ops1 IH]; simpl; intros s; [done|].
  intros [Hdrawn Hrest]. split; [done|].
  destruct (step s op); [by apply IH | done].
Qed.

(** Runs do not get stuck on positions the component's callers supply. *)

Lemma deleteBlock_total s index :
  nonEmpty s -> 0 <= index -> exists s', deleteBlock s index = Next s'.
Proof.
  intros Hne Hindex. unfold deleteBlock.
  destruct (Nat.eqb_spec (length (blocks s)) 1); [by eexists|].
  pose proof (spliceDelete_length (blocks s) index) as Hlen.
  assert (2 <= length (blocks s))%nat as Hlen2.
  { unfold nonEmpty in Hne. destruct (blocks s) as [|? [|? ?]]; simpl in *;
      [done | lia | lia]. }
  set (updatedBlocks := JSArray.spliceDelete (blocks s) index) in *.
  edestruct (get_in_range updatedBlocks) as [b ->]; [|by eexists].
  destruct (Z.leb_spec (Z.of_nat (length updatedBlocks)) index); lia.
Qed.

Lemma step_total s op :
  nonEmpty s -> inRange s op -> exists s', step s op = Next s'.
Proof.
  intros Hne.
  destruct op as [ty index uuid | index | b | ty uuid | e blockId empty uuid
                 | position | ]; simpl; intros Hrange; try by eexists.
  - by apply deleteBlock_total.
  - unfold handleSelectBlockType.
    destruct (Z.leb_spec 0 (targetIndex s)); [|by eexists].
    edestruct (set_in_range (blocks s) (Z.to_nat (targetIndex s)))
      as [updatedBlocks ->]; [lia | by eexists].
  - unfold handleBlockKeyDown.
    set (currentIndex := JSArray.findIndex _ _).
    assert (0 <= currentIndex < Z.of_nat (length (blocks s))) as Hcur.
    { apply findIndex_found.
      apply list_elem_of_fmap in Hrange as (block & -> & Hblock).
      exists block. split; [done | apply String.eqb_refl]. }
    destruct (String.eqb (TextBlock.key e) "Enter" && TextBlock.shiftKey e);
      [by eexists|].
    destruct (get_in_range (blocks s) currentIndex Hcur) as [currentBlock ->].
    destruct (String.eqb (TextBlock.key e) "Backspace").
    + destruct (isEmptyText currentBlock && (1 <? length (blocks s))%nat);
        [|by eexists].
      destruct (deleteBlock_total s currentIndex Hne) as [s1 ->]; [lia|].
      destruct (Z.ltb_spec 0 currentIndex); [|by eexists].
      edestruct (get_in_range (blocks s) (currentIndex - 1)) as [previous ->];
        [lia | by eexists].
    + destruct (String.eqb (TextBlock.key e) "/"); [|by eexists].
      destruct (isEmptyText currentBlock || empty); by eexists.
  - destruct (blocks s !! position); by eexists.
Qed.

Lemma step_nonEmpty s op s' : step s op = Next s' -> nonEmpty s -> nonEmpty s'.
Proof.
  assert (forall s0 i s1, deleteBlock s0 i = Next s1 -> nonEmpty s0 -> nonEmpty s1)
    as Hdelete.
  { intros s0 i s1 [-> | (_ & b & Hb & _)]%deleteBlock_blocks Hne; [done|].
    unfold nonEmpty. intros Hnil. rewrite Hnil in Hb.
    by apply elem_of_nil in Hb. }
  assert (forall s0 ty i u, nonEmpty (addBlock s0 ty i u)) as Hadd.
  { intros s0 ty i u. unfold nonEmpty, addBlock, JSArray.spliceInsert. simpl.
    by destruct (take _ _). }
  destruct op as [ty index uuid | index | b | ty uuid | e blockId empty uuid
                 | position | ]; simpl; intros Hstep Hne.
  - injection Hstep as <-. apply Hadd.
  - by eapply Hdelete.
  - injection Hstep as <-. unfold nonEmpty in *. simpl.
    by destruct (blocks s).
  - unfold handleSelectBlockType in Hstep.
    destruct (0 <=? targetIndex s); [|by injection Hstep as <-].
    destruct (JSArray.set _ _ _) as [updatedBlocks|] eqn:Hset; [|done].
    injection Hstep as <-. apply set_Some in Hset as [_ ->].
    unfold nonEmpty. simpl. by destruct (take _ _).
  - unfold handleBlockKeyDown in Hstep.
    destruct (String.eqb (TextBlock.key e) "Enter" && TextBlock.shiftKey e).
    { injection Hstep as <-. apply Hadd. }
    destruct (JSArray.get _ _) as [currentBlock|];
      [|repeat case_match; try done; by injection Hstep as <-].
    destruct (String.eqb (TextBlock.key e) "Backspace").
    { destruct (isEmptyText currentBlock && _); [|by injection Hstep as <-].
      destruct (deleteBlock s _) as [s1|] eqn:Hdel; [|done].
      apply Hdelete in Hdel; [|done].
      repeat case_match; try done; by injection Hstep as <-. }
    repeat case_match; try done; by injection Hstep as <-.
  - destruct (blocks s !! position); by injection Hstep as <-.
  - by injection Hstep as <-.
Qed.

Lemma run_total s ops :
  nonEmpty s -> inRangeAll s ops -> exists s', run s ops = Next s'.
Proof.
  revert s. induction ops as [|op ops IH]; simpl; intros s Hne Hrange.
  - by eexists.
  - destruct Hrange as [Hop Hrest].
    destruct (step_total s op Hne Hop) as [s1 Hstep].
    rewrite Hstep in *. apply IH; [|done].
    by eapply step_nonEmpty.
Qed.

(** Where a run ends: deleting at position -1 reads [updatedBlocks[-1].id],
    and a menu target left two past the end by deletions makes the
    replacement write beyond the array. *)
Example run_stuck :
  let a := emptyTextBlock "a" in
  let b := emptyTextBlock "b" in
  let c := emptyTextBlock "c" in
  let slash := {| TextBlock.key := "/"; TextBlock.shiftKey := false |} in
  run (init [a; b] "u") [DeleteBlock (-1)] = Stuck TypeError
  /\ run (init [a; b; c] "u")
       [KeyDown slash "c" true "v"; DeleteBlock 2; DeleteBlock 1;
        SelectBlockType todo "w"]
     = Stuck SparseArray.
Proof. split; reflexivity. Qed.

(** C2: with exactly one block, deleting at any position changes nothing:
    neither the block sequence nor the active identifier. *)
Theorem deleteBlock_last_block_noop s index :
  length (blocks s) = 1%nat -> deleteBlock s index = Next s.
Proof. intros Hlen. unfold deleteBlock. by rewrite Hlen. Qed.

(** C10: for a requested type other than text and todo, [createBlock]
    returns a text block with empty content.  Inserting with that type puts
    this text block at the insertion position, one block more in the
    sequence, and makes it active; menu-replacing with that type puts this
    text block at the menu's target and makes it active.  Both do what they
    do for the type text. *)
Theorem createBlock_unsupported_type_gives_text ty index uuid s :
  ty <> text -> ty <> todo ->
  createBlock ty index uuid
    = {| id := uuid; type := text; content := TextContent "" |}
  /\ addBlock s ty index uuid = addBlock s text index uuid
  /\ handleSelectBlockType s ty uuid = handleSelectBlockType s text uuid
  /\ blocks (addBlock s ty index uuid)
     = JSArray.spliceInsert (blocks s) (index + 1)
         {| id := uuid; type := text; content := TextContent "" |}
  /\ {| id := uuid; type := text; content := TextContent "" |}
       ∈ blocks (addBlock s ty index uuid)
  /\ length (blocks (addBlock s ty index uuid)) = S (length (blocks s))
  /\ activeBlockId (addBlock s ty index uuid) = Some uuid
  /\ (forall t : nat,
        targetIndex s = Z.of_nat t -> (t < length (blocks s))%nat ->
        exists s',
          handleSelectBlockType s ty uuid = Next s'
          /\ blocks s'
             = <[t := {| id := uuid; type := text; content := TextContent "" |}]>
                 (blocks s)
          /\ blocks s' !! t
             = Some {| id := uuid; type := text; content := TextContent "" |}
          /\ activeBlockId s' = Some uuid).
Proof.
  intros Htext Htodo.
  assert (forall i, createBlock ty i uuid
                    = {| id := uuid; type := text; content := TextContent "" |})
    as Hcreate by (intros i; by destruct ty).
  split; [apply Hcreate|].
  assert (forall i, createBlock ty i uuid = createBlock text i uuid) as Heq
    by (intros i; by destruct ty).
  split; [unfold addBlock; by rewrite !Heq|].
  split; [unfold handleSelectBlockType; by rewrite !Heq|].
  unfold addBlock. cbn [blocks activeBlockId]. rewrite !Hcreate.
  split; [done|].
  split; [rewrite spliceInsert_Permutation; apply list_elem_of_here|].
  split; [by rewrite spliceInsert_Permutation|].
  split; [done|].
  intros t Ht Hlt. unfold handleSelectBlockType, JSArray.set.
  rewrite Ht, Nat2Z.id, Hcreate.
  replace (0 <=? Z.of_nat t) with true by (symmetry; apply Z.leb_le; lia).
  replace (t <? length (blocks s))%nat with true
    by (symmetry; by apply Nat.ltb_lt).
  eexists. split; [reflexivity|]. cbn [blocks activeBlockId id].
  split; [done|]. split; [by apply list_lookup_insert_eq | done].
Qed.

(** Membership in a short list of literal identifiers is refuted by
    comparing with each of them. *)
Ltac not_among :=
  let H := fresh in
  intros H;
  repeat (apply elem_of_cons in H as [H | H]; [discriminate H|]);
  by apply elem_of_nil in H.

Lemma identifiers_distinct_and_active_present_witness :
  let s := init [] "a" in
  let ops :=
    [AddBlock heading 0 "b";
     UpdateBlock {| id := "a"; type := text; content := TextContent "hi" |};
     KeyDown {| TextBlock.key := "/"; TextBlock.shiftKey := false |} "b" true "c";
     SelectBlockType todo "d";
     DeleteBlock 0] in
  let s' :=
    {| blocks := [{| id := "d"; type := todo; content := TodoContent "" false |}];
       activeBlockId := Some "d"; targetIndex := 1; showBlockTypes := false |} in
  invariant s /\ freshIds s ops /\ run s ops = Next s' /\ invariant s'.
Proof.
  intros s ops s'.
  assert (invariant s) as Hinv by (apply init_invariant; constructor).
  assert (freshIds s ops) as Hfresh by (cbn; repeat split; not_among).
  assert (run s ops = Next s') as Hrun by reflexivity.
  split; [exact Hinv|]. split; [exact Hfresh|]. split; [exact Hrun|].
  exact (identifiers_distinct_and_active_present s ops s' Hinv Hfresh Hrun).
Defined.

Lemma deleteBlock_last_block_noop_witness :
  length (blocks (init [] "a")) = 1%nat
  /\ deleteBlock (init [] "a") 0 = Next (init [] "a").
Proof.
  assert (length (blocks (init [] "a")) = 1%nat) as Hlen by reflexivity.
  split; [exact Hlen|].
  exact (deleteBlock_last_block_noop (init [] "a") 0 Hlen).
Defined.

Lemma createBlock_unsupported_type_gives_text_witness :
  let s :=
    {| blocks := [{| id := "a"; type := text; content := TextContent "draft" |}];
       activeBlockId := Some "a"; targetIndex := 0; showBlockTypes := false |} in
  heading <> text /\ heading <> todo
  /\ createBlock heading 0 "b"
     = {| id := "b"; type := text; content := TextContent "" |}
  /\ addBlock s heading 0 "b" = addBlock s text 0 "b"
  /\ handleSelectBlockType s heading "b" = handleSelectBlockType s text "b"
  /\ blocks (addBlock s heading 0 "b")
     = JSArray.spliceInsert (blocks s) (0 + 1)
         {| id := "b"; type := text; content := TextContent "" |}
  /\ {| id := "b"; type := text; content := TextContent "" |}
       ∈ blocks (addBlock s heading 0 "b")
  /\ length (blocks (addBlock s heading 0 "b")) = S (length (blocks s))
  /\ activeBlockId (addBlock s heading 0 "b") = Some "b"
  /\ (forall t : nat,
        targetIndex s = Z.of_nat t -> (t < length (blocks s))%nat ->
        exists s',
          handleSelectBlockType s heading "b" = Next s'
          /\ blocks s'
             = <[t := {| id := "b"; type := text; content := TextContent "" |}]>
                 (blocks s)
          /\ blocks s' !! t
             = Some {| id := "b"; type := text; content := TextContent "" |}
          /\ activeBlockId s' = Some "b").
Proof.
  intros s.
  assert (heading <> text) as H1 by discriminate.
  assert (heading <> todo) as H2 by discriminate.
  split; [exact H1|]. split; [exact H2|].
  exact (createBlock_unsupported_type_gives_text heading 0 "b" s H1 H2).
Defined.

End EditorFacts.

(** ** What the pages write *)

Section WriterFacts.
Import Json NotePage.

Lemma normalizeContent_isArray noteContent uuid :
  isArray (Some (normalizeContent noteContent uuid)) = true.
Proof. by destruct noteContent as [[]|]. Qed.

Lemma step_arrayContents s ev : arrayContents s -> arrayContents (step s ev).
Proof.
  intros [Hnote Hsched]. unfold arrayContents, arrayContent in *.
  destruct ev as [loaded uuid | blocks | v | ]; simpl.
  - split; [|done]. rewrite lookup_insert_eq. apply normalizeContent_isArray.
  - rewrite lookup_insert_eq. split; [done|].
    apply Forall_cons. split; [|done]. by rewrite lookup_insert_eq.
  - split; [|done]. by rewrite lookup_insert_ne.
  - split; [done|]. by apply Forall_cons.
Qed.

Lemma foldl_step_arrayContents s evs :
  arrayContents s -> arrayContents (foldl step s evs).
Proof.
  revert s. induction evs as [|ev evs IH]; simpl; intros s Hs; [done|].
  by apply IH, step_arrayContents.
Qed.

Lemma saveNote_content updatedNote noteId now :
  saveNote updatedNote noteId now !! "content" = updatedNote !! "content".
Proof. unfold saveNote. by rewrite !lookup_insert_ne. Qed.

(** C7, as the code has it: whatever the note page has loaded and whatever
    was edited, every note it hands to the debounced save is sent by PUT
    with [content] in array form; the dashboard's POST for a new note
    carries [content] as the empty plain string; and the note page, loading
    a note whose [content] is the empty string, makes it an array of one
    empty text block. *)
Theorem note_page_PUT_content_is_array :
  (forall evs updatedNote noteId now,
     updatedNote ∈ scheduled (run evs) ->
     isArray (saveNote updatedNote noteId now !! "content") = true)
  /\ (forall now,
        Dashboard.createNewNote now !! "content" = Some (JStr "")
        /\ isArray (Dashboard.createNewNote now !! "content") = false)
  /\ (forall s (loaded : gmap string json) uuid,
        loaded !! "content" = Some (JStr "") ->
        note (fetched s loaded uuid) !! "content"
        = Some (JArr [ofBlock {| Block.id := uuid; Block.type := Block.text;
                                 Block.content := Block.TextContent "" |}])).
Proof.
  split; [|split].
  - intros evs updatedNote noteId now Hin. rewrite saveNote_content.
    assert (arrayContents (run evs)) as [_ Hsched].
    { apply foldl_step_arrayContents. split; [reflexivity | constructor]. }
    rewrite Forall_forall in Hsched. by apply Hsched.
  - intros now. split; reflexivity.
  - intros s loaded uuid Hcontent. unfold fetched. cbn [note].
    by rewrite lookup_insert_eq, Hcontent.
Qed.

Lemma note_page_PUT_content_is_array_witness :
  let loaded : gmap string json :=
    <["title" := JStr "Legacy"]> (<["content" := JStr "plain text"]> ∅) in
  let evs := [Fetched loaded "a"; TitleChange "Renamed"; TitleSave] in
  let updatedNote : gmap string json :=
    <["title" := JStr "Renamed"]>
      (<["content" := normalizeContent (Some (JStr "plain text")) "a"]> loaded) in
  let created := Dashboard.createNewNote "2026-01-01T00:00:00.000Z" in
  updatedNote ∈ scheduled (run evs)
  /\ isArray (saveNote updatedNote "0123456789abcdef01234567"
                "2026-01-01T00:00:00.000Z" !! "content") = true
  /\ created !! "content" = Some (JStr "")
  /\ note (fetched initial created "b") !! "content"
     = Some (JArr [ofBlock {| Block.id := "b"; Block.type := Block.text;
                              Block.content := Block.TextContent "" |}]).
Proof.
  intros loaded evs updatedNote created.
  assert (updatedNote ∈ scheduled (run evs)) as Hin by apply list_elem_of_here.
  assert (created !! "content" = Some (JStr "")) as Hcreated by reflexivity.
  split; [exact Hin|].
  split; [exact (proj1 note_page_PUT_content_is_array evs updatedNote
                   "0123456789abcdef01234567" "2026-01-01T00:00:00.000Z" Hin)|].
  split; [exact Hcreated|].
  exact (proj2 (proj2 note_page_PUT_content_is_array) initial created "b"
           Hcreated).
Defined.

(** C7, as stated, fails: the dashboard's POST carries [content] as the
    empty plain string. *)
Lemma dashboard_POST_content_is_a_string :
  Dashboard.createNewNote "2026-01-01T00:00:00.000Z" !! "content"
    = Some (JStr "")
  /\ isArray (Dashboard.createNewNote "2026-01-01T00:00:00.000Z" !! "content")
     = false.
Proof. split; reflexivity. Qed.

End WriterFacts.

(** ** The route handlers *)

Section ApiFacts.
Import Json Api.

(** C9: an identifier that [ObjectId.isValid] rejects is answered with
    status 400 and the message "Invalid note ID"; the collection is not
    called and the database is as before. *)
Theorem GET_id_invalid_is_400 isValid newObjectId db id :
  isValid id = false ->
  let h := GET_id isValid newObjectId db id in
  status (response h) = 400
  /\ payload (response h) !! "error" = Some (JStr "Invalid note ID")
  /\ calls h = []
  /\ database h = db.
Proof.
  intros Hid. unfold GET_id. rewrite Hid, orb_true_r. simpl.
  by rewrite lookup_insert_eq.
Qed.

(** C8, as the code has it: a successful PUT sets every field supplied in
    the body (other than [_id]) to the supplied value and keeps every other
    field of the stored document as it was. *)
Theorem PUT_sets_supplied_fields_keeps_others newObjectId db body :
  status (response (PUT newObjectId db body)) = 200 ->
  exists oid doc updated,
    body !! "_id" ≫= newObjectId = Some oid
    /\ stored db oid = Some doc
    /\ stored (database (PUT newObjectId db body)) oid = Some updated
    /\ (forall f v, f <> "_id" -> body !! f = Some v -> updated !! f = Some v)
    /\ (forall f, f = "_id" \/ body !! f = None -> updated !! f = doc !! f).
Proof.
  unfold PUT.
  destruct (falsy (body !! "_id")); [done|].
  destruct db as [notes|]; [|done].
  destruct (body !! "_id" ≫= newObjectId) as [oid|] eqn:Hoid; [|done].
  destruct (notes !! oid) as [doc|] eqn:Hdoc; [|done].
  simpl. intros _. exists oid, doc, (applySet (delete "_id" body) doc).
  split; [done|]. split; [done|]. split; [by rewrite lookup_insert_eq|].
  unfold applySet. split.
  - intros f v Hf Hv. apply lookup_union_Some_l.
    by rewrite lookup_delete_ne.
  - intros f [-> | Hf]; apply lookup_union_r.
    + apply lookup_delete_eq.
    + rewrite lookup_delete_None. by right.
Qed.

Lemma GET_id_invalid_is_400_witness :
  let db := Up (<["0123456789abcdef01234567" := <["title" := JStr "t"]> ∅]> ∅) in
  let h := GET_id hex24 hexObjectId db "not-an-object-id" in
  hex24 "not-an-object-id" = false
  /\ status (response h) = 400
  /\ payload (response h) !! "error" = Some (JStr "Invalid note ID")
  /\ calls h = []
  /\ database h = db.
Proof.
  intros db h.
  assert (hex24 "not-an-object-id" = false) as Hid by reflexivity.
  split; [exact Hid|].
  exact (GET_id_invalid_is_400 hex24 hexObjectId db "not-an-object-id" Hid).
Defined.

Lemma PUT_sets_supplied_fields_keeps_others_witness :
  let oid := "0123456789abcdef01234567" in
  let db :=
    Up (<[oid := <["title" := JStr "Old"]> (<["content" := JStr "keep"]> ∅)]> ∅) in
  let body : gmap string json :=
    <["_id" := JStr oid]> (<["title" := JStr "New"]> ∅) in
  status (response (PUT hexObjectId db body)) = 200
  /\ exists oid' doc updated,
       body !! "_id" ≫= hexObjectId = Some oid'
       /\ stored db oid' = Some doc
       /\ stored (database (PUT hexObjectId db body)) oid' = Some updated
       /\ (forall f v, f <> "_id" -> body !! f = Some v -> updated !! f = Some v)
       /\ (forall f, f = "_id" \/ body !! f = None -> updated !! f = doc !! f).
Proof.
  intros oid db body.
  assert (status (response (PUT hexObjectId db body)) = 200) as Hok
    by reflexivity.
  split; [exact Hok|].
  exact (PUT_sets_supplied_fields_keeps_others hexObjectId db body Hok).
Defined.

(** C8, as stated, fails: a field of the stored document that the body
    does not mention survives a successful PUT, so the stored document is
    not the body's fields alone. *)
Lemma PUT_keeps_fields_absent_from_body :
  let oid := "0123456789abcdef01234567" in
  let db :=
    Up (<[oid := <["title" := JStr "Old"]> (<["content" := JStr "keep"]> ∅)]> ∅) in
  let body : gmap string json :=
    <["_id" := JStr oid]> (<["title" := JStr "New"]> ∅) in
  let h := PUT hexObjectId db body in
  status (response h) = 200
  /\ body !! "content" = None
  /\ stored (database h) oid ≫= (fun doc => doc !! "content")
     = Some (JStr "keep")
  /\ stored (database h) oid <> Some (delete "_id" body).
Proof.
  intros oid db body h.
  split; [reflexivity|]. split; [reflexivity|]. split; [reflexivity|].
  intros Heq.
  apply (f_equal (fun o => o ≫= (fun doc : gmap string json => doc !! "content")))
    in Heq.
  vm_compute in Heq. discriminate Heq.
Qed.

End ApiFacts.

(** ** The text block: further behaviour of Tab, Shift+Tab and Backspace *)

Section TextBlockMore.
Import TextBlock.

Implicit Types pre mid sel ws rest post : jsstring.

Lemma trimStart_white_prefix ws rest :
  Forall (fun c => isWhiteSpace c = true) ws ->
  noLeadingWhiteSpace rest ->
  trimStart (ws ++ rest) = rest.
Proof.
  intros Hws Hrest. induction Hws as [|c ws Hc _ IH]; simpl.
  - by apply trimStart_noLeadingWhiteSpace.
  - by rewrite Hc.
Qed.

Lemma substring_prefix_app pre mid post :
  substring (pre ++ mid ++ post) 0 (len pre + len mid) = pre ++ mid.
Proof.
  rewrite <- len_app, app_assoc. apply substring_prefix.
Qed.

Lemma substringFrom_suffix_app pre mid post :
  substringFrom (pre ++ mid ++ post) (len pre + len mid) = post.
Proof.
  rewrite <- len_app, app_assoc. apply substringFrom_suffix.
Qed.

Lemma tab_at pre sel post :
  handleKeyDown
    {| value := pre ++ sel ++ post;
       selectionStart := len pre;
       selectionEnd := len pre + len sel |} Tab
  = {| defaultPrevented := true;
       changed := Some (pre ++ spaces TAB_SIZE ++ post);
       caret := Some (len pre + TAB_SIZE);
       delegated := false |}.
Proof.
  unfold handleKeyDown. cbn [value selectionStart selectionEnd].
  change (String.eqb (key Tab) "Tab") with true.
  change (negb (shiftKey Tab)) with true. cbn match.
  rewrite substring_prefix, substringFrom_suffix_app. reflexivity.
Qed.

(** Tab replaces the selection by two spaces, wherever it is, and puts the
    cursor right after them. *)
Theorem tab_replaces_selection pre sel post :
  handleKeyDown
    {| value := pre ++ sel ++ post;
       selectionStart := len pre;
       selectionEnd := len pre + len sel |} Tab
  = {| defaultPrevented := true;
       changed := Some (pre ++ spaces TAB_SIZE ++ post);
       caret := Some (len pre + TAB_SIZE);
       delegated := false |}.
Proof. apply tab_at. Qed.

Lemma substringFrom_drop (s : jsstring) (k : nat) :
  (k <= length s)%nat -> substringFrom s (Z.of_nat k) = drop k s.
Proof.
  intros Hk. unfold substringFrom, len.
  rewrite substring_in_range by lia.
  apply take_ge. rewrite length_drop. lia.
Qed.

(** Shift+Tab on a line whose part before the cursor is [ws ++ rest], with
    [ws] its leading white space. *)
Lemma shiftTab_line pre ws rest post :
  lineBoundary pre ->
  Forall (fun c => isWhiteSpace c = true) ws ->
  newline ∉ ws -> newline ∉ rest -> noLeadingWhiteSpace rest ->
  pre ++ ws ++ rest <> [] \/ head post <> Some newline ->
  press (cursorAt (pre ++ ws ++ rest ++ post) (len pre + len ws + len rest))
        ShiftTab
    = cursorAt (pre ++ drop 2 ws ++ rest ++ post)
               (len pre + len (drop 2 ws) + len rest).
Proof.
  intros Hpre Hws Hnws Hnrest Hrest Hcase.
  set (mid := ws ++ rest).
  assert (len mid = len ws + len rest) as Hmid by apply len_app.
  assert (newline ∉ mid) as Hnl.
  { unfold mid. rewrite elem_of_app. by intros [H | H]. }
  assert (trimStart mid = rest) as Htrim by by apply trimStart_white_prefix.
  unfold press, handleKeyDown, cursorAt.
  cbn [value selectionStart selectionEnd].
  change (String.eqb (key ShiftTab) "Tab") with true.
  change (negb (shiftKey ShiftTab)) with false. cbn match.
  rewrite (app_assoc ws rest post). fold mid.
  assert (lastIndexOf (pre ++ mid ++ post) newline
            (len pre + len ws + len rest - 1) + 1 = len pre) as ->.
  { replace (len pre + len ws + len rest - 1) with (len pre + len mid - 1) by lia.
    apply lineStart_spec; [done | done |].
    destruct Hcase as [Hc | Hc]; [left; exact Hc | by right]. }
  assert (substring (pre ++ mid ++ post) (len pre) (len pre + len ws + len rest)
          = mid) as ->.
  { replace (len pre + len ws + len rest) with (len pre + len mid) by lia.
    apply substring_middle. }
  rewrite Htrim, Hmid.
  replace (len ws + len rest - len rest) with (len ws) by lia.
  set (k := Z.min TAB_SIZE (len ws)).
  assert (k = Z.of_nat (Nat.min 2 (length ws))) as Hk
    by (unfold k, TAB_SIZE, len; lia).
  assert (len (drop 2 ws) = len ws - k) as Hdrop
    by (unfold len in *; rewrite length_drop; lia).
  destruct (Z.ltb_spec 0 k) as [Hpos | Hzero]; cbn match; unfold settle;
    cbn [changed caret default value selectionStart selectionEnd id].
  - rewrite substring_prefix.
    assert (substringFrom mid k = drop 2 ws ++ rest) as ->.
    { rewrite Hk, substringFrom_drop
        by (unfold mid; rewrite length_app; lia).
      unfold mid. rewrite drop_app_le by lia. f_equal.
      destruct ws as [|a [|b ws']]; reflexivity. }
    assert (substringFrom (pre ++ mid ++ post) (len pre + len ws + len rest)
            = post) as ->.
    { replace (len pre + len ws + len rest) with (len pre + len mid) by lia.
      apply substringFrom_suffix_app. }
    pose proof (len_nonneg (drop 2 ws)). pose proof (len_nonneg rest).
    unfold id. f_equal; [by rewrite <- app_assoc | lia..].
  - assert (ws = []) as -> by (destruct ws; [done | simpl in Hk; lia]).
    unfold mid, id. simpl. f_equal; unfold len; simpl; lia.
Qed.

(** Shift+Tab removes up to two leading white-space code units of the
    cursor's line, of whatever kind (spaces, tabs, ...), keeps everything
    else and moves the cursor back by the number removed.  The cursor at
    position 0 before a leading newline is excluded. *)
Theorem shift_tab_removes_leading_white_space pre ws rest post :
  lineBoundary pre ->
  Forall (fun c => isWhiteSpace c = true) ws ->
  newline ∉ ws -> newline ∉ rest -> noLeadingWhiteSpace rest ->
  pre ++ ws ++ rest <> [] \/ head post <> Some newline ->
  press (cursorAt (pre ++ ws ++ rest ++ post) (len pre + len ws + len rest))
        ShiftTab
    = cursorAt (pre ++ drop 2 ws ++ rest ++ post)
               (len pre + len (drop 2 ws) + len rest).
Proof. apply shiftTab_line. Qed.

Lemma shift_tab_removes_leading_white_space_witness :
  let tab := "009"%char in
  lineBoundary (str "a" ++ [newline])
  /\ Forall (fun c => isWhiteSpace c = true) [tab; " "%char; " "%char]
  /\ (newline ∉ [tab; " "%char; " "%char])
  /\ (newline ∉ str "bc")
  /\ noLeadingWhiteSpace (str "bc")
  /\ ((str "a" ++ [newline]) ++ [tab; " "%char; " "%char] ++ str "bc" <> []
      \/ head (str "d") <> Some newline)
  /\ press (cursorAt (str "a" ++ [newline] ++ [tab; " "%char; " "%char]
                       ++ str "bc" ++ str "d") 7) ShiftTab
     = cursorAt (str "a" ++ [newline] ++ [" "%char] ++ str "bc" ++ str "d") 5.
Proof.
  intros tab.
  assert (lineBoundary (str "a" ++ [newline])) as H1
    by (right; exists (str "a"); reflexivity).
  assert (Forall (fun c => isWhiteSpace c = true) [tab; " "%char; " "%char])
    as H2 by (repeat constructor).
  assert (newline ∉ [tab; " "%char; " "%char]) as H3.
  { intros H. repeat (apply elem_of_cons in H as [H | H]; [discriminate H|]).
    by apply elem_of_nil in H. }
  assert (newline ∉ str "bc") as H4.
  { intros H. repeat (apply elem_of_cons in H as [H | H]; [discriminate H|]).
    by apply elem_of_nil in H. }
  assert (noLeadingWhiteSpace (str "bc")) as H5 by reflexivity.
  assert ((str "a" ++ [newline]) ++ [tab; " "%char; " "%char] ++ str "bc" <> []
          \/ head (str "d") <> Some newline) as H6 by (left; discriminate).
  split; [exact H1|]. split; [exact H2|]. split; [exact H3|].
  split; [exact H4|]. split; [exact H5|]. split; [exact H6|].
  exact (shift_tab_removes_leading_white_space (str "a" ++ [newline])
           [tab; " "%char; " "%char] (str "bc") (str "d") H1 H2 H3 H4 H5 H6).
Defined.

Lemma spaces_white n : Forall (fun c => isWhiteSpace c = true) (spaces n).
Proof. unfold spaces. apply Forall_replicate. reflexivity. Qed.

(** After any number of leading spaces on a line, Tab followed by Shift+Tab
    gives back the content and the cursor position. *)
Theorem tab_then_shift_tab_in_indent pre post k :
  lineBoundary pre -> 0 <= k ->
  press (press (cursorAt (pre ++ spaces k ++ post) (len pre + k)) Tab) ShiftTab
    = cursorAt (pre ++ spaces k ++ post) (len pre + k).
Proof.
  intros Hpre Hk.
  assert (press (cursorAt (pre ++ spaces k ++ post) (len pre + k)) Tab
          = cursorAt (pre ++ spaces (k + TAB_SIZE) ++ [] ++ post)
                     (len pre + len (spaces (k + TAB_SIZE)) + len [])) as ->.
  { unfold press, cursorAt.
    pose proof (tab_at (pre ++ spaces k) [] post) as Htab.
    rewrite len_app, len_spaces in Htab by done.
    change (len []) with 0 in Htab. rewrite Z.add_0_r in Htab.
    change ([] ++ post) with post in Htab.
    rewrite <- !app_assoc in Htab. rewrite Htab.
    unfold settle. cbn [changed caret default value selectionStart selectionEnd].
    rewrite len_spaces by (unfold TAB_SIZE; lia). change (len []) with 0.
    rewrite spaces_add by (unfold TAB_SIZE; lia).
    unfold id. rewrite <- !app_assoc. change ([] ++ post) with post.
    f_equal; lia. }
  rewrite shiftTab_line; [| done | apply spaces_white | apply newline_not_in_spaces
                          | apply not_elem_of_nil | done | ].
  - assert (drop 2 (spaces (k + TAB_SIZE)) = spaces k) as ->.
    { unfold spaces, TAB_SIZE. rewrite drop_replicate. f_equal. lia. }
    rewrite len_spaces by done. change (len []) with 0.
    change ([] ++ post) with post. f_equal; lia.
  - left. intros Hnil. apply app_eq_nil in Hnil as [_ Hnil].
    apply app_eq_nil in Hnil as [Hnil _].
    apply (f_equal len) in Hnil. rewrite len_spaces in Hnil
      by (unfold TAB_SIZE; lia).
    unfold TAB_SIZE, len in Hnil. simpl in Hnil. lia.
Qed.

Lemma tab_then_shift_tab_in_indent_witness :
  lineBoundary (str "a" ++ [newline]) /\ 0 <= 3
  /\ press (press (cursorAt (str "a" ++ [newline] ++ spaces 3 ++ str "b") 5) Tab)
           ShiftTab
     = cursorAt (str "a" ++ [newline] ++ spaces 3 ++ str "b") 5.
Proof.
  assert (lineBoundary (str "a" ++ [newline])) as H1
    by (right; exists (str "a"); reflexivity).
  assert (0 <= 3) as H2 by lia.
  split; [exact H1|]. split; [exact H2|].
  exact (tab_then_shift_tab_in_indent (str "a" ++ [newline]) (str "b") 3 H1 H2).
Defined.

Lemma lineStart_of_line pre mid post :
  lineBoundary pre -> newline ∉ mid -> mid <> [] ->
  lastIndexOf (pre ++ mid ++ post) newline (len pre + len mid - 1) + 1 = len pre.
Proof.
  intros Hpre Hmid Hne. apply lineStart_spec; [done | done |].
  left. intros Hnil. by apply app_eq_nil in Hnil as [_ ?].
Qed.

(** Backspace removes two spaces at once whenever the two code units before
    a collapsed cursor are spaces and the cursor's column is even, also in
    the middle of a line of text. *)
Theorem backspace_even_column_removes_two_spaces pre mid post :
  lineBoundary pre -> newline ∉ mid -> Z.even (len mid) = true ->
  handleKeyDown
    (cursorAt (pre ++ mid ++ spaces TAB_SIZE ++ post)
              (len pre + len mid + TAB_SIZE)) Backspace
  = {| defaultPrevented := true;
       changed := Some (pre ++ mid ++ post);
       caret := Some (len pre + len mid);
       delegated := false |}.
Proof.
  intros Hpre Hmid Heven.
  pose proof (len_nonneg mid) as Hlm.
  set (line := mid ++ spaces TAB_SIZE).
  assert (len line = len mid + TAB_SIZE) as Hline
    by (unfold line; rewrite len_app, len_spaces; unfold TAB_SIZE; lia).
  assert (newline ∉ line) as Hnl.
  { unfold line. rewrite elem_of_app. intros [H | H]; [done|].
    by apply newline_not_in_spaces in H. }
  assert (line <> []) as Hne.
  { intros Hnil. apply (f_equal len) in Hnil. rewrite Hline in Hnil.
    unfold TAB_SIZE, len in *. simpl in Hnil. lia. }
  unfold handleKeyDown, cursorAt. cbn [value selectionStart selectionEnd].
  change (String.eqb (key Backspace) "Tab") with false.
  change (String.eqb (key Backspace) "Backspace") with true.
  cbn match. rewrite Z.eqb_refl. cbn [andb].
  rewrite (app_assoc mid (spaces TAB_SIZE) post). fold line.
  replace (len pre + len mid + TAB_SIZE) with (len pre + len line) by lia.
  rewrite lineStart_of_line by done.
  rewrite substring_middle, substringFrom_suffix_app, Hline.
  replace (TAB_SIZE <=? len mid + TAB_SIZE) with true
    by (symmetry; apply Z.leb_le; lia).
  unfold line at 1. rewrite endsWith_app.
  replace (len pre + (len mid + TAB_SIZE) - len pre) with (len mid + TAB_SIZE)
    by lia.
  assert (Z.rem (len mid + TAB_SIZE) TAB_SIZE = 0) as ->.
  { rewrite Z.rem_mod_nonneg by (unfold TAB_SIZE; lia).
    unfold TAB_SIZE. rewrite Z.add_mod, Z.mod_same by lia.
    apply Zeven_bool_iff, Zeven_ex in Heven as [h Hh]. rewrite Hh.
    rewrite Z.mul_comm, Z.mod_mul by lia. reflexivity. }
  rewrite Z.eqb_refl, orb_true_r. cbn [andb].
  replace (len pre + (len mid + TAB_SIZE) - TAB_SIZE) with (len pre + len mid)
    by lia.
  unfold line. rewrite <- (app_assoc mid), substring_prefix_app.
  by rewrite <- app_assoc.
Qed.

Lemma backspace_even_column_removes_two_spaces_witness :
  lineBoundary [] /\ (newline ∉ str "ab:d") /\ Z.even (len (str "ab:d")) = true
  /\ handleKeyDown (cursorAt (str "ab:d  ef") 6) Backspace
     = {| defaultPrevented := true; changed := Some (str "ab:def");
          caret := Some 4; delegated := false |}.
Proof.
  assert (lineBoundary []) as H1 by (left; reflexivity).
  assert (newline ∉ str "ab:d") as H2.
  { intros H. repeat (apply elem_of_cons in H as [H | H]; [discriminate H|]).
    by apply elem_of_nil in H. }
  assert (Z.even (len (str "ab:d")) = true) as H3 by reflexivity.
  split; [exact H1|]. split; [exact H2|]. split; [exact H3|].
  exact (backspace_even_column_removes_two_spaces [] (str "ab:d") (str "ef")
           H1 H2 H3).
Defined.

(** At an odd column Backspace is left to the browser: the handler neither
    prevents the default nor changes anything, whatever precedes the
    cursor. *)
Theorem backspace_odd_column_not_intercepted pre mid post :
  lineBoundary pre -> newline ∉ mid -> Z.odd (len mid) = true ->
  handleKeyDown (cursorAt (pre ++ mid ++ post) (len pre + len mid)) Backspace
    = untouched.
Proof.
  intros Hpre Hmid Hodd.
  pose proof (len_nonneg mid) as Hlm.
  assert (mid <> []) as Hne by (intros ->; discriminate Hodd).
  unfold handleKeyDown, cursorAt. cbn [value selectionStart selectionEnd].
  change (String.eqb (key Backspace) "Tab") with false.
  change (String.eqb (key Backspace) "Backspace") with true.
  change (String.eqb (key Backspace) "Enter") with false.
  change (String.eqb (key Backspace) "/") with false.
  cbn match. rewrite Z.eqb_refl. cbn [andb orb].
  rewrite lineStart_of_line by done.
  replace (len pre + len mid - len pre) with (len mid) by lia.
  apply Zodd_bool_iff, Zodd_ex in Hodd as [h Hh].
  assert ((len mid =? TAB_SIZE) = false) as ->
    by (apply Z.eqb_neq; unfold TAB_SIZE; lia).
  assert ((Z.rem (len mid) TAB_SIZE =? 0) = false) as ->.
  { apply Z.eqb_neq. rewrite Z.rem_mod_nonneg by (unfold TAB_SIZE; lia).
    unfold TAB_SIZE. rewrite Hh, Z.add_comm, Z.mul_comm, Z.mod_add by lia.
    discriminate. }
  rewrite andb_false_r.
  assert (JS.eqb (pre ++ mid ++ post) [] = false) as ->.
  { apply bool_decide_eq_false. intros Hnil.
    apply app_eq_nil in Hnil as [_ Hnil]. by apply app_eq_nil in Hnil as [? _]. }
  reflexivity.
Qed.

Lemma backspace_odd_column_not_intercepted_witness :
  lineBoundary [] /\ (newline ∉ str "a  ") /\ Z.odd (len (str "a  ")) = true
  /\ handleKeyDown (cursorAt (str "a  b") 3) Backspace = untouched.
Proof.
  assert (lineBoundary []) as H1 by (left; reflexivity).
  assert (newline ∉ str "a  ") as H2.
  { intros H. repeat (apply elem_of_cons in H as [H | H]; [discriminate H|]).
    by apply elem_of_nil in H. }
  assert (Z.odd (len (str "a  ")) = true) as H3 by reflexivity.
  split; [exact H1|]. split; [exact H2|]. split; [exact H3|].
  exact (backspace_odd_column_not_intercepted [] (str "a  ") (str "b") H1 H2 H3).
Defined.

(** With the cursor at position 0 of any content that begins with a newline,
    Shift+Tab does not leave the text alone: it puts one more newline in
    front and moves the cursor to position 1. *)
Theorem shift_tab_at_start_before_newline_inserts_newline post :
  press (cursorAt (newline :: post) 0) ShiftTab
    = cursorAt (newline :: newline :: post) 1.
Proof.
  unfold press, handleKeyDown, cursorAt.
  cbn [value selectionStart selectionEnd].
  change (String.eqb (key ShiftTab) "Tab") with true.
  change (negb (shiftKey ShiftTab)) with false. cbn match.
  assert (lastIndexOf (newline :: post) newline (0 - 1) + 1 = 1) as -> by reflexivity.
  assert (substring (newline :: post) 1 0 = [newline]) as ->.
  { unfold substring, clamp, len. simpl length.
    replace (Z.to_nat (Z.min (Z.max 1 0) (Z.of_nat (S (length post))))) with 1%nat
      by lia.
    replace (Z.to_nat (Z.min (Z.max 0 0) (Z.of_nat (S (length post))))) with 0%nat
      by lia.
    reflexivity. }
  change (trimStart [newline]) with (@nil ascii).
  change (Z.min TAB_SIZE (len [newline] - len [])) with 1.
  change (0 <? 1) with true. cbn match.
  assert (substring (newline :: post) 0 1 = [newline]) as ->.
  { change 1 with (len [newline]). apply (substring_prefix [newline] post). }
  assert (substringFrom [newline] 1 = []) as -> by reflexivity.
  assert (substringFrom (newline :: post) 0 = newline :: post) as ->.
  { change 0 with (len []). apply (substringFrom_suffix [] (newline :: post)). }
  reflexivity.
Qed.

End TextBlockMore.

(** ** The block editor: what each operation does to the sequence *)

Section EditorMore.
Import Block BlockEditor BlockRenderer.

Implicit Types s : EditorState.

Lemma findIndex_first {A} (p : A -> bool) (l : list A) (i : nat) x :
  l !! i = Some x -> p x = true ->
  (forall j y, (j < i)%nat -> l !! j = Some y -> p y = false) ->
  JSArray.findIndex p l = Z.of_nat i.
Proof.
  revert i. induction l as [|z l IH]; intros i Hx Hp Hbefore; [done|].
  destruct i as [|i]; simpl in *.
  - injection Hx as ->. by rewrite Hp.
  - rewrite (Hbefore 0%nat z) by (done || lia).
    assert (JSArray.findIndex p l = Z.of_nat i) as ->.
    { apply IH; [done | done |].
      intros j y Hj Hy. apply (Hbefore (S j) y); [lia | done]. }
    destruct (Z.ltb_spec (Z.of_nat i) 0); lia.
Qed.

Lemma findIndex_by_id (bs : list BlockData) (i : nat) (b : BlockData) :
  NoDup (id <$> bs) -> bs !! i = Some b ->
  JSArray.findIndex (fun block => String.eqb (id block) (id b)) bs = Z.of_nat i.
Proof.
  intros Hnd Hb. eapply findIndex_first; [done | apply String.eqb_refl |].
  intros j y Hj Hy. apply String.eqb_neq. intros Heq.
  assert ((id <$> bs) !! j = Some (id b)) as Hj'
    by (by rewrite list_lookup_fmap, Hy, <- Heq).
  assert ((id <$> bs) !! i = Some (id b)) as Hi'
    by (by rewrite list_lookup_fmap, Hb).
  pose proof (NoDup_lookup _ _ _ _ Hnd Hj' Hi'). lia.
Qed.

Lemma spliceStart_in_range {A} (a : list A) (i : nat) :
  (i <= length a)%nat -> JSArray.spliceStart a (Z.of_nat i) = i.
Proof.
  intros Hi. unfold JSArray.spliceStart.
  destruct (Z.ltb_spec (Z.of_nat i) 0); lia.
Qed.

Lemma spliceDelete_in_range {A} (a : list A) (i : nat) :
  (i < length a)%nat -> JSArray.spliceDelete a (Z.of_nat i) = delete i a.
Proof.
  intros Hi. unfold JSArray.spliceDelete.
  rewrite spliceStart_in_range by lia. symmetry. apply delete_take_drop.
Qed.

Lemma get_nat {A} (a : list A) (i : nat) : JSArray.get a (Z.of_nat i) = a !! i.
Proof.
  unfold JSArray.get. destruct (Z.ltb_spec (Z.of_nat i) 0); [lia|].
  by rewrite Nat2Z.id.
Qed.

(** Shift+Enter in a block puts a new empty text block right after it,
    keeps all other blocks in order and makes the new block active. *)
Theorem shift_enter_inserts_after_current s i b textContentEmpty uuid :
  NoDup (ids s) -> blocks s !! i = Some b ->
  exists s',
    handleBlockKeyDown s ShiftEnter (id b) textContentEmpty uuid = Next s'
    /\ blocks s'
       = take (S i) (blocks s) ++ emptyTextBlock uuid :: drop (S i) (blocks s)
    /\ activeBlockId s' = Some uuid.
Proof.
  intros Hnd Hb. eexists. split; [reflexivity|].
  unfold addBlock. cbn [blocks activeBlockId]. split; [|reflexivity].
  rewrite (findIndex_by_id _ i b) by done.
  unfold JSArray.spliceInsert.
  replace (Z.of_nat i + 1) with (Z.of_nat (S i)) by lia.
  rewrite spliceStart_in_range; [done|].
  apply lookup_lt_Some in Hb. lia.
Qed.

Lemma shift_enter_inserts_after_current_witness :
  let a := emptyTextBlock "a" in
  let b := emptyTextBlock "b" in
  let s := init [a; b] "u" in
  NoDup (ids s) /\ blocks s !! 0%nat = Some a
  /\ exists s',
       handleBlockKeyDown s ShiftEnter (id a) false "c" = Next s'
       /\ blocks s'
          = take 1 (blocks s) ++ emptyTextBlock "c" :: drop 1 (blocks s)
       /\ activeBlockId s' = Some "c".
Proof.
  intros a b s.
  assert (NoDup (ids s)) as H1.
  { apply NoDup_cons. split; [|apply NoDup_singleton].
    intros H. apply list_elem_of_singleton in H. discriminate H. }
  assert (blocks s !! 0%nat = Some a) as H2 by reflexivity.
  split; [exact H1|]. split; [exact H2|].
  exact (shift_enter_inserts_after_current s 0 a false "c" H1 H2).
Defined.

Lemma deleteBlock_at s (i : nat) b :
  blocks s !! i = Some b -> (1 < length (blocks s))%nat ->
  deleteBlock s (Z.of_nat i)
  = Next {| blocks := delete i (blocks s);
            activeBlockId :=
              id <$> (blocks s
                        !! (if (S i <? length (blocks s))%nat then S i
                            else (i - 1)%nat));
            targetIndex := targetIndex s;
            showBlockTypes := showBlockTypes s |}.
Proof.
  intros Hb Hlen. pose proof (lookup_lt_Some _ _ _ Hb) as Hi.
  unfold deleteBlock.
  destruct (Nat.eqb_spec (length (blocks s)) 1); [lia|].
  rewrite spliceDelete_in_range by done.
  assert (length (delete i (blocks s)) = (length (blocks s) - 1)%nat) as Hdel
    by (rewrite length_delete; [lia | by eexists]).
  rewrite Hdel.
  destruct (Nat.ltb_spec (S i) (length (blocks s))) as [Hnext | Hlast].
  - destruct (Z.leb_spec (Z.of_nat (length (blocks s) - 1)) (Z.of_nat i)); [lia|].
    rewrite get_nat, list_lookup_delete_ge by lia.
    destruct (lookup_lt_is_Some_2 (blocks s) (S i) Hnext) as [next Hn].
    by rewrite Hn.
  - destruct (Z.leb_spec (Z.of_nat (length (blocks s) - 1)) (Z.of_nat i)); [|lia].
    replace (Z.of_nat (length (blocks s) - 1) - 1) with (Z.of_nat (i - 1)) by lia.
    rewrite get_nat, list_lookup_delete_lt by lia.
    destruct (lookup_lt_is_Some_2 (blocks s) (i - 1)) as [prev Hp]; [lia|].
    by rewrite Hp.
Qed.

(** Deleting a block at a valid position when there are several removes
    exactly that block and makes active the block that followed it, or the
    one before it when it was the last. *)
Theorem deleteBlock_removes_position s (i : nat) b :
  blocks s !! i = Some b -> (1 < length (blocks s))%nat ->
  exists s',
    deleteBlock s (Z.of_nat i) = Next s'
    /\ blocks s' = delete i (blocks s)
    /\ activeBlockId s'
       = id <$> (blocks s
                   !! (if (S i <? length (blocks s))%nat then S i
                       else (i - 1)%nat))
    /\ is_Some (activeBlockId s').
Proof.
  intros Hb Hlen. eexists. split; [by eapply deleteBlock_at|].
  cbn [blocks activeBlockId]. split; [done|]. split; [done|].
  apply fmap_is_Some, lookup_lt_is_Some_2.
  apply lookup_lt_Some in Hb.
  destruct (Nat.ltb_spec (S i) (length (blocks s))); lia.
Qed.

Lemma deleteBlock_removes_position_witness :
  let a := emptyTextBlock "a" in
  let b := emptyTextBlock "b" in
  let s := init [a; b] "u" in
  blocks s !! 1%nat = Some b /\ (1 < length (blocks s))%nat
  /\ exists s',
       deleteBlock s (Z.of_nat 1) = Next s'
       /\ blocks s' = delete 1%nat (blocks s)
       /\ activeBlockId s'
          = id <$> (blocks s
                      !! (if (2 <? length (blocks s))%nat then 2%nat
                          else (1 - 1)%nat))
       /\ is_Some (activeBlockId s').
Proof.
  intros a b s.
  assert (blocks s !! 1%nat = Some b) as H1 by reflexivity.
  assert (1 < length (blocks s))%nat as H2 by (simpl; lia).
  split; [exact H1|]. split; [exact H2|].
  exact (deleteBlock_removes_position s 1 b H1 H2).
Defined.

(** Backspace in an empty text block, when it is not the only block, removes
    that block and makes active the block before it, or the block that
    followed it when it was the first. *)
Theorem backspace_on_empty_block_removes_it s (i : nat) b textContentEmpty uuid :
  NoDup (ids s) -> blocks s !! i = Some b ->
  isEmptyText b = true -> (1 < length (blocks s))%nat ->
  exists s',
    handleBlockKeyDown s TextBlock.Backspace (id b) textContentEmpty uuid
      = Next s'
    /\ blocks s' = delete i (blocks s)
    /\ activeBlockId s'
       = id <$> (blocks s !! (match i with O => 1%nat | S j => j end)).
Proof.
  intros Hnd Hb Hempty Hlen. pose proof (lookup_lt_Some _ _ _ Hb) as Hi.
  unfold handleBlockKeyDown.
  change (String.eqb (TextBlock.key TextBlock.Backspace) "Enter") with false.
  change (String.eqb (TextBlock.key TextBlock.Backspace) "Backspace") with true.
  cbn match.
  rewrite (findIndex_by_id _ i b) by done.
  rewrite get_nat, Hb, Hempty.
  replace (1 <? length (blocks s))%nat with true
    by (symmetry; by apply Nat.ltb_lt).
  cbn match. rewrite (deleteBlock_at s i b) by done.
  destruct i as [|j].
  - simpl (0 <? Z.of_nat 0). cbn match. eexists. split; [reflexivity|].
    cbn [blocks activeBlockId]. split; [done|].
    by replace (1 <? length (blocks s))%nat with true
      by (symmetry; by apply Nat.ltb_lt).
  - replace (0 <? Z.of_nat (S j)) with true by (symmetry; apply Z.ltb_lt; lia).
    cbn match.
    replace (Z.of_nat (S j) - 1) with (Z.of_nat j) by lia.
    rewrite get_nat.
    destruct (lookup_lt_is_Some_2 (blocks s) j) as [previous Hp]; [lia|].
    rewrite Hp. eexists. split; [reflexivity|]. done.
Qed.

Lemma backspace_on_empty_block_removes_it_witness :
  let a := emptyTextBlock "a" in
  let b := emptyTextBlock "b" in
  let s := init [a; b] "u" in
  NoDup (ids s) /\ blocks s !! 0%nat = Some a
  /\ isEmptyText a = true /\ (1 < length (blocks s))%nat
  /\ exists s',
       handleBlockKeyDown s TextBlock.Backspace (id a) true "c" = Next s'
       /\ blocks s' = delete 0%nat (blocks s)
       /\ activeBlockId s' = id <$> (blocks s !! 1%nat).
Proof.
  intros a b s.
  assert (NoDup (ids s)) as H1.
  { apply NoDup_cons. split; [|apply NoDup_singleton].
    intros H. apply list_elem_of_singleton in H. discriminate H. }
  assert (blocks s !! 0%nat = Some a) as H2 by reflexivity.
  assert (isEmptyText a = true) as H3 by reflexivity.
  assert (1 < length (blocks s))%nat as H4 by (simpl; lia).
  split; [exact H1|]. split; [exact H2|]. split; [exact H3|]. split; [exact H4|].
  exact (backspace_on_empty_block_removes_it s 0 a true "c" H1 H2 H3 H4).
Defined.

(** Backspace in a block that has text, or is not a text block, or is the
    only block leaves the editor as it is. *)
Theorem backspace_keeps_block_with_text_or_last s (i : nat) b textContentEmpty uuid :
  NoDup (ids s) -> blocks s !! i = Some b ->
  isEmptyText b = false \/ length (blocks s) = 1%nat ->
  handleBlockKeyDown s TextBlock.Backspace (id b) textContentEmpty uuid = Next s.
Proof.
  intros Hnd Hb Hcase. unfold handleBlockKeyDown.
  change (String.eqb (TextBlock.key TextBlock.Backspace) "Enter") with false.
  change (String.eqb (TextBlock.key TextBlock.Backspace) "Backspace") with true.
  cbn match.
  rewrite (findIndex_by_id _ i b) by done.
  rewrite get_nat, Hb.
  destruct Hcase as [-> | Hone]; [done|].
  rewrite Hone. by destruct (isEmptyText b).
Qed.

Lemma backspace_keeps_block_with_text_or_last_witness :
  let s := init [] "a" in
  NoDup (ids s) /\ blocks s !! 0%nat = Some (emptyTextBlock "a")
  /\ (isEmptyText (emptyTextBlock "a") = false \/ length (blocks s) = 1%nat)
  /\ handleBlockKeyDown s TextBlock.Backspace "a" true "c" = Next s.
Proof.
  intros s.
  assert (NoDup (ids s)) as H1 by apply NoDup_singleton.
  assert (blocks s !! 0%nat = Some (emptyTextBlock "a")) as H2 by reflexivity.
  assert (isEmptyText (emptyTextBlock "a") = false \/ length (blocks s) = 1%nat)
    as H3 by (right; reflexivity).
  split; [exact H1|]. split; [exact H2|]. split; [exact H3|].
  exact (backspace_keeps_block_with_text_or_last s 0 (emptyTextBlock "a")
           true "c" H1 H2 H3).
Defined.

(** [updateBlock] with the identifier of a present block replaces exactly
    that block, at its position; nothing else in the state changes. *)
Theorem updateBlock_replaces_in_place s (i : nat) b updatedBlock :
  NoDup (ids s) -> blocks s !! i = Some b -> id updatedBlock = id b ->
  updateBlock s updatedBlock
  = {| blocks := <[i := updatedBlock]> (blocks s);
       activeBlockId := activeBlockId s;
       targetIndex := targetIndex s;
       showBlockTypes := showBlockTypes s |}.
Proof.
  intros Hnd Hb Hid. unfold updateBlock. f_equal.
  apply list_eq. intros j. rewrite list_lookup_fmap.
  destruct (decide (j = i)) as [-> | Hji].
  - rewrite Hb, list_lookup_insert_eq by (by eapply lookup_lt_Some).
    simpl. by rewrite Hid, String.eqb_refl.
  - rewrite list_lookup_insert_ne by done.
    destruct (blocks s !! j) as [y|] eqn:Hy; [|done]. simpl.
    destruct (String.eqb (id y) (id updatedBlock)) eqn:Heq; [|done].
    apply String.eqb_eq in Heq. exfalso. apply Hji.
    eapply (NoDup_lookup (ids s) j i (id b)); [done | |].
    + unfold ids. rewrite list_lookup_fmap, Hy. simpl. congruence.
    + unfold ids. by rewrite list_lookup_fmap, Hb.
Qed.

Lemma updateBlock_replaces_in_place_witness :
  let a := emptyTextBlock "a" in
  let b := emptyTextBlock "b" in
  let s := init [a; b] "u" in
  let edited := {| id := "b"; type := text; content := TextContent "hello" |} in
  NoDup (ids s) /\ blocks s !! 1%nat = Some b /\ id edited = id b
  /\ updateBlock s edited
     = {| blocks := [a; edited]; activeBlockId := Some "a";
          targetIndex := -1; showBlockTypes := false |}.
Proof.
  intros a b s edited.
  assert (NoDup (ids s)) as H1.
  { apply NoDup_cons. split; [|apply NoDup_singleton].
    intros H. apply list_elem_of_singleton in H. discriminate H. }
  assert (blocks s !! 1%nat = Some b) as H2 by reflexivity.
  assert (id edited = id b) as H3 by reflexivity.
  split; [exact H1|]. split; [exact H2|]. split; [exact H3|].
  exact (updateBlock_replaces_in_place s 1 b edited H1 H2 H3).
Defined.

(** [updateBlock] with an identifier that no block carries changes
    nothing. *)
Theorem updateBlock_unknown_id_changes_nothing s updatedBlock :
  id updatedBlock ∉ ids s -> updateBlock s updatedBlock = s.
Proof.
  intros Hnot. destruct s as [bs a t sh]. unfold updateBlock, ids in *.
  simpl in *. f_equal.
  rewrite <- (list_fmap_id bs) at 2. apply list_fmap_ext.
  intros j y Hy. simpl.
  destruct (String.eqb (id y) (id updatedBlock)) eqn:Heq; [|done].
  apply String.eqb_eq in Heq. exfalso. apply Hnot. rewrite <- Heq.
  apply list_elem_of_fmap_2. by eapply list_elem_of_lookup_2.
Qed.

Lemma updateBlock_unknown_id_changes_nothing_witness :
  let s := init [emptyTextBlock "a"] "u" in
  let stale := {| id := "z"; type := text; content := TextContent "late" |} in
  (id stale ∉ ids s) /\ updateBlock s stale = s.
Proof.
  intros s stale.
  assert (id stale ∉ ids s) as H1.
  { intros H. apply list_elem_of_singleton in H. discriminate H. }
  split; [exact H1|].
  exact (updateBlock_unknown_id_changes_nothing s stale H1).
Defined.

Lemma run_nonEmpty s ops s' : run s ops = Next s' -> nonEmpty s -> nonEmpty s'.
Proof.
  revert s. induction ops as [|op ops IH]; simpl; intros s Hrun Hne.
  - by injection Hrun as <-.
  - destruct (step s op) as [s1|] eqn:Hstep; [|done].
    apply (IH s1); [done|]. by eapply step_nonEmpty.
Qed.

(** Whatever blocks the editor is opened with and whatever is done in it,
    its block sequence is never empty. *)
Theorem editor_never_empty initialBlocks uuid ops s' :
  run (init initialBlocks uuid) ops = Next s' -> blocks s' <> [].
Proof.
  intros Hrun. eapply run_nonEmpty; [done|].
  unfold nonEmpty, init. by destruct initialBlocks.
Qed.

Lemma editor_never_empty_witness :
  let slash := {| TextBlock.key := "/"; TextBlock.shiftKey := false |} in
  let ops :=
    [KeyDown TextBlock.Backspace "u" true "v"; DeleteBlock 0;
     KeyDown slash "u" true "w"; SelectBlockType todo "x"; DeleteBlock 0] in
  let s' :=
    {| blocks := [{| id := "x"; type := todo; content := TodoContent "" false |}];
       activeBlockId := Some "x"; targetIndex := 0; showBlockTypes := false |} in
  run (init [] "u") ops = Next s' /\ blocks s' <> [].
Proof.
  intros slash ops s'.
  assert (run (init [] "u") ops = Next s') as H1 by reflexivity.
  split; [exact H1|].
  exact (editor_never_empty [] "u" ops s' H1).
Defined.

Lemma createBlock_shape ty index uuid :
  wellShaped (createBlock ty index uuid) /\ supported (createBlock ty index uuid).
Proof. destruct ty; split; done. Qed.

(** Choosing a type in the menu while its target is a position of the
    sequence replaces exactly the block at that position by a new block with
    empty content, whose payload has the shape of its type and which has a
    widget; the new block becomes active. *)
Theorem menu_selection_replaces_target s (t : nat) ty uuid :
  targetIndex s = Z.of_nat t -> (t < length (blocks s))%nat ->
  exists s' newBlock,
    handleSelectBlockType s ty uuid = Next s'
    /\ blocks s' = <[t := newBlock]> (blocks s)
    /\ activeBlockId s' = Some uuid
    /\ id newBlock = uuid
    /\ (content newBlock = TextContent ""
        \/ content newBlock = TodoContent "" false)
    /\ wellShaped newBlock /\ supported newBlock.
Proof.
  intros Ht Hlt. unfold handleSelectBlockType, JSArray.set.
  rewrite Ht, Nat2Z.id.
  replace (0 <=? Z.of_nat t) with true by (symmetry; apply Z.leb_le; lia).
  replace (t <? length (blocks s))%nat with true
    by (symmetry; by apply Nat.ltb_lt).
  eexists _, (createBlock ty (Z.of_nat t) uuid).
  split; [reflexivity|]. cbn [blocks activeBlockId].
  rewrite createBlock_id. split; [done|]. split; [done|]. split; [done|].
  split; [destruct ty; auto | apply createBlock_shape].
Qed.

Lemma menu_selection_replaces_target_witness :
  let s :=
    {| blocks := [{| id := "a"; type := text; content := TextContent "draft" |}];
       activeBlockId := Some "a"; targetIndex := 0; showBlockTypes := false |} in
  targetIndex s = Z.of_nat 0 /\ (0 < length (blocks s))%nat
  /\ exists s' newBlock,
       handleSelectBlockType s todo "b" = Next s'
       /\ blocks s' = <[0%nat := newBlock]> (blocks s)
       /\ activeBlockId s' = Some "b"
       /\ id newBlock = "b"
       /\ (content newBlock = TextContent ""
           \/ content newBlock = TodoContent "" false)
       /\ wellShaped newBlock /\ supported newBlock.
Proof.
  intros s.
  assert (targetIndex s = Z.of_nat 0) as H1 by reflexivity.
  assert (0 < length (blocks s))%nat as H2 by (simpl; lia).
  split; [exact H1|]. split; [exact H2|].
  exact (menu_selection_replaces_target s 0 todo "b" H1 H2).
Defined.

(** The "add a block" button appends an empty text block and makes it
    active. *)
Lemma handleAddBlockClick_appends s uuid :
  blocks (handleAddBlockClick s uuid) = blocks s ++ [emptyTextBlock uuid]
  /\ activeBlockId (handleAddBlockClick s uuid) = Some uuid.
Proof.
  unfold handleAddBlockClick, addBlock, JSArray.spliceInsert.
  cbn [blocks activeBlockId]. split; [|done].
  replace (Z.of_nat (length (blocks s)) - 1 + 1)
    with (Z.of_nat (length (blocks s))) by lia.
  rewrite spliceStart_in_range by done.
  by rewrite take_ge, drop_ge by done.
Qed.

Lemma Forall_spliced {A} (P : A -> Prop) (l : list A) (j k : nat) x :
  Forall P l -> P x -> Forall P (take j l ++ x :: drop k l).
Proof.
  intros Hl Hx. apply Forall_app. split; [by apply Forall_take|].
  apply Forall_cons. split; [done | by apply Forall_drop].
Qed.

Lemma addBlock_supported s ty index uuid :
  Forall supported (blocks s) ->
  Forall supported (blocks (addBlock s ty index uuid)).
Proof.
  intros Hs. unfold addBlock, JSArray.spliceInsert. cbn [blocks].
  apply Forall_spliced; [done | apply createBlock_shape].
Qed.

Lemma deleteBlock_supported s index s' :
  deleteBlock s index = Next s' ->
  Forall supported (blocks s) -> Forall supported (blocks s').
Proof.
  intros [-> | [-> _]]%deleteBlock_blocks Hs; [done|].
  unfold JSArray.spliceDelete. apply Forall_app.
  split; [by apply Forall_take | by apply Forall_drop].
Qed.

Lemma step_supported s op s' :
  step s op = Next s' ->
  match op with UpdateBlock updatedBlock => supported updatedBlock | _ => True end ->
  Forall supported (blocks s) -> Forall supported (blocks s').
Proof.
  destruct op as [ty index uuid | index | u | ty uuid | e blockId empty uuid
                 | position | ]; simpl; intros Hstep Hop Hs.
  - injection Hstep as <-. by apply addBlock_supported.
  - by eapply deleteBlock_supported.
  - injection Hstep as <-. unfold updateBlock. cbn [blocks].
    apply Forall_fmap. eapply Forall_impl; [exact Hs|].
    intros b Hb. simpl. by destruct (String.eqb (id b) (id u)).
  - unfold handleSelectBlockType in Hstep.
    destruct (0 <=? targetIndex s); [|by injection Hstep as <-].
    destruct (JSArray.set _ _ _) as [updatedBlocks|] eqn:Hset; [|done].
    injection Hstep as <-. apply set_Some in Hset as [_ ->]. cbn [blocks].
    apply Forall_spliced; [done | apply createBlock_shape].
  - unfold handleBlockKeyDown in Hstep.
    destruct (String.eqb (TextBlock.key e) "Enter" && TextBlock.shiftKey e).
    { injection Hstep as <-. by apply addBlock_supported. }
    destruct (JSArray.get _ _) as [currentBlock|];
      [|repeat case_match; try done; by injection Hstep as <-].
    destruct (String.eqb (TextBlock.key e) "Backspace").
    { destruct (isEmptyText currentBlock && _); [|by injection Hstep as <-].
      destruct (deleteBlock s _) as [s1|] eqn:Hdel; [|done].
      apply deleteBlock_supported in Hdel; [|done].
      repeat case_match; try done; by injection Hstep as <-. }
    repeat case_match; try done; by injection Hstep as <-.
  - destruct (blocks s !! position); by injection Hstep as <-.
  - by injection Hstep as <-.
Qed.

(** The editor never puts a block into the sequence that the renderer has no
    widget for: if every block has a widget (type text or todo) and the
    widgets' updates carry such blocks, so does every block after any run. *)
Theorem every_block_keeps_a_widget s ops s' :
  Forall supported (blocks s) -> updatesSupported ops ->
  run s ops = Next s' -> Forall supported (blocks s').
Proof.
  revert s. induction ops as [|op ops IH]; simpl; intros s Hs Hops Hrun.
  - by injection Hrun as <-.
  - apply Forall_cons in Hops as [Hop Hops].
    destruct (step s op) as [s1|] eqn:Hstep; [|done].
    apply (IH s1); [|done..]. by eapply step_supported.
Qed.

Lemma every_block_keeps_a_widget_witness :
  let s := init [] "a" in
  let ops :=
    [AddBlock image 0 "b"; AddBlock table 1 "c";
     UpdateBlock {| id := "b"; type := text; content := TextContent "x" |}] in
  Forall supported (blocks s) /\ updatesSupported ops
  /\ run s ops
     = Next {| blocks :=
                 [emptyTextBlock "a";
                  {| id := "b"; type := text; content := TextContent "x" |};
                  emptyTextBlock "c"];
               activeBlockId := Some "c"; targetIndex := -1;
               showBlockTypes := false |}
  /\ Forall supported
       [emptyTextBlock "a";
        {| id := "b"; type := text; content := TextContent "x" |};
        emptyTextBlock "c"].
Proof.
  intros s ops.
  assert (Forall supported (blocks s)) as H1 by (repeat constructor; done).
  assert (updatesSupported ops) as H2 by (repeat constructor; done).
  split; [exact H1|]. split; [exact H2|].
  refine ((fun H3 => conj H3 (every_block_keeps_a_widget s ops _ H1 H2 H3)) _).
  reflexivity.
Defined.

End EditorMore.

(** ** The todo block *)

Section TodoFacts.
Import Json TodoBlock.

Implicit Types block : gmap string json.

Lemma todoContent_with_content block (fields : gmap string json) :
  todoContent (<["content" := JObj fields]> block) = fields.
Proof. unfold todoContent. by rewrite lookup_insert_eq. Qed.

(** The checkbox and the text are independent: ticking flips what the
    checkbox shows and keeps the text, typing sets the text and keeps the
    checkbox; this holds for every block, also one with a malformed
    content. *)
Theorem todo_checkbox_and_text_are_independent block v :
  checkedShown (handleCheckboxChange block) = negb (checkedShown block)
  /\ textShown (handleCheckboxChange block) = textShown block
  /\ checkedShown (handleTextChange block v) = checkedShown block
  /\ textShown (handleTextChange block v) = Some (JStr v).
Proof.
  unfold checkedShown, textShown, handleCheckboxChange, handleTextChange.
  rewrite !todoContent_with_content.
  rewrite !lookup_insert_eq, !lookup_insert_ne by done.
  split; [by destruct (falsy (todoContent block !! "checked"))|].
  split; [done|]. split; [done|].
  simpl. by destruct (String.eqb_spec v "") as [-> | _].
Qed.

(** Ticking twice gives back the block exactly, when its content is an
    object whose [checked] field is a boolean. *)
Theorem todo_toggle_twice_restores_block block (fields : gmap string json) c :
  block !! "content" = Some (JObj fields) ->
  fields !! "checked" = Some (JBool c) ->
  handleCheckboxChange (handleCheckboxChange block) = block.
Proof.
  intros Hcontent Hchecked.
  assert (todoContent block = fields) as Hfields
    by (unfold todoContent; by rewrite Hcontent).
  unfold handleCheckboxChange.
  rewrite todoContent_with_content, lookup_insert_eq, Hfields, Hchecked.
  rewrite !insert_insert_eq. simpl.
  replace (if if c then false else true then false else true) with c
    by (by destruct c).
  rewrite (insert_id fields) by done. by apply insert_id.
Qed.

Lemma todo_toggle_twice_restores_block_witness :
  let fields : gmap string json :=
    <["text" := JStr "milk"]> (<["checked" := JBool true]> ∅) in
  let block : gmap string json :=
    <["id" := JStr "a"]>
      (<["type" := JStr "todo"]> (<["content" := JObj fields]> ∅)) in
  block !! "content" = Some (JObj fields)
  /\ fields !! "checked" = Some (JBool true)
  /\ handleCheckboxChange (handleCheckboxChange block) = block.
Proof.
  intros fields block.
  assert (block !! "content" = Some (JObj fields)) as H1 by reflexivity.
  assert (fields !! "checked" = Some (JBool true)) as H2 by reflexivity.
  split; [exact H1|]. split; [exact H2|].
  exact (todo_toggle_twice_restores_block block fields true H1 H2).
Defined.

(** A content that is not an object (absent, null, a string, a number or a
    boolean) is treated as [{ text: '', checked: false }]: the widget shows
    an empty unchecked item, and the first edit writes a well-formed
    content. *)
Theorem todo_malformed_content_defaults block v :
  match block !! "content" with
  | Some (JObj _) | Some (JArr _) => False
  | _ => True
  end ->
  checkedShown block = false
  /\ textShown block = Some (JStr "")
  /\ handleTextChange block v !! "content"
     = Some (JObj (<["text" := JStr v]> (<["checked" := JBool false]> ∅)))
  /\ handleCheckboxChange block !! "content"
     = Some (JObj (<["text" := JStr ""]> (<["checked" := JBool true]> ∅))).
Proof.
  intros Hbad.
  assert (todoContent block
          = <["text" := JStr ""]> (<["checked" := JBool false]> ∅)) as Hdef.
  { unfold todoContent. by destruct (block !! "content") as [[]|]. }
  unfold checkedShown, textShown, handleTextChange, handleCheckboxChange.
  rewrite Hdef, !lookup_insert_eq.
  split; [reflexivity|]. split; [reflexivity|].
  split; [f_equal; f_equal; by rewrite insert_insert_eq | reflexivity].
Qed.

Lemma todo_malformed_content_defaults_witness :
  let block : gmap string json :=
    <["id" := JStr "a"]>
      (<["type" := JStr "todo"]> (<["content" := JStr "legacy"]> ∅)) in
  match block !! "content" with
  | Some (JObj _) | Some (JArr _) => False
  | _ => True
  end
  /\ checkedShown block = false
  /\ textShown block = Some (JStr "")
  /\ handleTextChange block "milk" !! "content"
     = Some (JObj (<["text" := JStr "milk"]> (<["checked" := JBool false]> ∅)))
  /\ handleCheckboxChange block !! "content"
     = Some (JObj (<["text" := JStr ""]> (<["checked" := JBool true]> ∅))).
Proof.
  intros block.
  assert (match block !! "content" with
          | Some (JObj _) | Some (JArr _) => False
          | _ => True
          end) as H1 by exact I.
  split; [exact H1|].
  exact (todo_malformed_content_defaults block "milk" H1).
Defined.

End TodoFacts.

(** ** The block type menu *)

Section MenuFacts.
Import BlockMenu.

Implicit Types s t q : jsstring.

Lemma startsWith_spec s t : startsWith s t = true <-> exists u, s = t ++ u.
Proof.
  revert s. induction t as [|c t IH]; intros s; simpl.
  - split; [intros _; by exists s | done].
  - destruct s as [|d s]; [split; [done | by intros [u ?]]|].
    rewrite andb_true_iff, IH. split.
    + intros [Hcd [u ->]]. apply Ascii.eqb_eq in Hcd as ->. by exists u.
    + intros [u [= -> ->]]. split; [apply Ascii.eqb_refl | by exists u].
Qed.

Lemma includes_spec s t : includes s t = true <-> exists l u, s = l ++ t ++ u.
Proof.
  induction s as [|d s IH]; simpl.
  - rewrite orb_false_r, startsWith_spec. split.
    + intros [u Hu]. by exists [], u.
    + intros (l & u & Hs). symmetry in Hs.
      apply app_eq_nil in Hs as [-> Hs]. apply app_eq_nil in Hs as [-> ->].
      by exists [].
  - rewrite orb_true_iff, startsWith_spec, IH. split.
    + intros [[u Hu] | (l & u & ->)]; [by exists [], u | by exists (d :: l), u].
    + intros (l & u & Hs). destruct l as [|d' l].
      * left. by exists u.
      * right. injection Hs as -> ->. by exists l, u.
Qed.

Lemma includes_narrower s a q b :
  includes s (a ++ q ++ b) = true -> includes s q = true.
Proof.
  rewrite !includes_spec. intros (l & u & ->).
  exists (l ++ a), (b ++ u). by rewrite <- !app_assoc.
Qed.

Lemma toLowerCaseUnit_idemp c :
  toLowerCaseUnit (toLowerCaseUnit c) = toLowerCaseUnit c.
Proof. destruct c as [[] [] [] [] [] [] [] []]; reflexivity. Qed.

Lemma toLowerCase_idemp s : toLowerCase (toLowerCase s) = toLowerCase s.
Proof.
  unfold toLowerCase. rewrite <- list_fmap_compose.
  apply list_fmap_ext. intros _ c _. apply toLowerCaseUnit_idemp.
Qed.

(** Searching the menu: the empty query lists every type; extending the
    query at either end never brings an entry back; and the case of the
    query does not matter. *)
Theorem menu_search_narrows_and_ignores_case a q b :
  filteredBlockTypes [] = blockTypes
  /\ filteredBlockTypes (a ++ q ++ b) `sublist_of` filteredBlockTypes q
  /\ filteredBlockTypes (toLowerCase q) = filteredBlockTypes q.
Proof.
  split; [reflexivity|]. split.
  - unfold filteredBlockTypes.
    induction blockTypes as [|block rest IH]; [done|].
    rewrite !filter_cons.
    destruct (decide (includes (toLowerCase block.2)
                        (toLowerCase (a ++ q ++ b)) = true)) as [Hin | _].
    + unfold toLowerCase in Hin. rewrite !fmap_app in Hin.
      apply includes_narrower in Hin.
      rewrite decide_True by done. by apply sublist_skip.
    + case_decide; [by apply sublist_cons | done].
  - unfold filteredBlockTypes. by rewrite toLowerCase_idemp.
Qed.

End MenuFacts.

(** ** The dashboard's excerpt *)

Section ExcerptFacts.
Import Json Excerpt.

Lemma truncate_length t maxLength :
  0 <= maxLength -> len (truncate t maxLength) <= maxLength + 3.
Proof.
  intros Hm. unfold truncate.
  destruct (Z.leb_spec (len t) maxLength) as [Hle | Hgt]; [lia|].
  rewrite len_app. change (len (str "...")) with 3.
  rewrite <- (Z2Nat.id maxLength) at 1 by done.
  change 0 with (Z.of_nat 0).
  rewrite substring_in_range by (unfold len in Hgt; lia).
  unfold len. rewrite length_take, length_drop. lia.
Qed.

(** An excerpt is never longer than [maxLength] plus the three dots,
    whatever the stored content is. *)
Theorem excerpt_length_bounded content maxLength e :
  0 <= maxLength -> getExcerpt content maxLength = Text e ->
  len e <= maxLength + 3.
Proof.
  intros Hm. unfold getExcerpt.
  destruct (falsy content); [intros [= <-]; unfold len; simpl; lia|].
  destruct content as [[| | | c | blocks |]|];
    try (intros [= <-]; unfold len; simpl; lia).
  - intros [= <-]. by apply truncate_length.
  - destruct (extract blocks); [|done]. intros [= <-]. by apply truncate_length.
Qed.

Lemma excerpt_length_bounded_witness :
  let content := Some (JStr "abcdefghij") in
  0 <= 4 /\ getExcerpt content 4 = Text (str "abcd...")
  /\ len (str "abcd...") <= 4 + 3.
Proof.
  intros content.
  assert (0 <= 4) as H1 by lia.
  assert (getExcerpt content 4 = Text (str "abcd...")) as H2 by reflexivity.
  split; [exact H1|]. split; [exact H2|].
  exact (excerpt_length_bounded content 4 (str "abcd...") H1 H2).
Defined.

Lemma turn_ofBlock (b : Block.BlockData) :
  turn (ofBlock b)
  = match textOfBlock b with
    | Some t => Break t
    | None => Continue
    end.
Proof.
  destruct b as [i ty c].
  destruct ty, c as [t | t level | t checked | rows | src alt [caption|]];
    reflexivity.
Qed.

Lemma extract_ofBlocks (bs : list Block.BlockData) :
  extract (ofBlock <$> bs) = Some (firstText bs).
Proof.
  induction bs as [|b bs IH]; [done|].
  rewrite fmap_cons. cbn [extract firstText]. rewrite turn_ofBlock.
  by destruct (textOfBlock b).
Qed.

(** On content written by the editor the excerpt never throws: it is the
    truncated text of the first text, heading or todo block that carries
    one (tables and images are passed over), or empty. *)
Theorem excerpt_of_editor_content (bs : list Block.BlockData) maxLength :
  getExcerpt (Some (ofBlocks bs)) maxLength
    = Text (truncate (str (firstText bs)) maxLength).
Proof.
  unfold getExcerpt, ofBlocks. simpl. by rewrite extract_ofBlocks.
Qed.

(** The excerpt of a legacy string content is the excerpt of the block
    array the note page converts it to. *)
Theorem excerpt_same_after_conversion c uuid maxLength :
  0 <= maxLength ->
  getExcerpt (Some (NotePage.normalizeContent (Some (JStr c)) uuid)) maxLength
    = getExcerpt (Some (JStr c)) maxLength.
Proof.
  intros Hm. unfold NotePage.normalizeContent.
  rewrite excerpt_of_editor_content. simpl firstText.
  unfold getExcerpt. simpl falsy.
  destruct (String.eqb_spec c "") as [-> | _]; [|done].
  unfold truncate. simpl. change (len []) with 0.
  by replace (0 <=? maxLength) with true by (symmetry; by apply Z.leb_le).
Qed.

Lemma excerpt_same_after_conversion_witness :
  0 <= 100
  /\ getExcerpt (Some (NotePage.normalizeContent (Some (JStr "old note")) "u")) 100
     = getExcerpt (Some (JStr "old note")) 100.
Proof.
  assert (0 <= 100) as H1 by lia.
  split; [exact H1|].
  exact (excerpt_same_after_conversion "old note" "u" 100 H1).
Defined.

End ExcerptFacts.

(** ** The route handlers together *)

Section RoutesFacts.
Import Json Api Routes.

(** A note created by POST is what GET /api/notes/[id] returns under the
    identifier POST answered with, and creating it leaves every other
    document as it was. *)
Theorem POST_then_GET_id_returns_the_note isValid newObjectId notes body generated :
  body !! "_id" = None ->
  notes !! generated = None ->
  generated <> "" -> isValid generated = true ->
  newObjectId (JStr generated) = Some generated ->
  exists db',
    POST (Up notes) body generated
      = Some (success (<["success" := JBool true]>
                         (<["id" := JStr generated]> ∅)), db')
    /\ response (GET_id isValid newObjectId db' generated)
       = success (<["note" := JObj (<["_id" := JStr generated]> body)]> ∅)
    /\ forall oid, oid <> generated -> stored db' oid = notes !! oid.
Proof.
  intros Hbody Hfree Hne Hvalid Hoid. unfold POST. rewrite Hbody, Hfree.
  eexists. split; [reflexivity|]. split.
  - unfold GET_id. rewrite Hvalid, Hoid.
    replace (String.eqb generated "") with false
      by (symmetry; by apply String.eqb_neq).
    simpl. rewrite lookup_insert_eq. by rewrite delete_id.
  - intros oid Hoid'. simpl. by rewrite lookup_insert_ne.
Qed.

Lemma POST_then_GET_id_returns_the_note_witness :
  let generated := "0123456789abcdef01234567" in
  let body := Dashboard.createNewNote "2026-01-01T00:00:00.000Z" in
  body !! "_id" = None
  /\ (∅ : gmap string (gmap string json)) !! generated = None
  /\ generated <> "" /\ hex24 generated = true
  /\ hexObjectId (JStr generated) = Some generated
  /\ exists db',
       POST (Up ∅) body generated
         = Some (success (<["success" := JBool true]>
                            (<["id" := JStr generated]> ∅)), db')
       /\ response (GET_id hex24 hexObjectId db' generated)
          = success (<["note" := JObj (<["_id" := JStr generated]> body)]> ∅)
       /\ forall oid, oid <> generated ->
            stored db' oid = (∅ : gmap string (gmap string json)) !! oid.
Proof.
  intros generated body.
  assert (body !! "_id" = None) as H1 by reflexivity.
  assert ((∅ : gmap string (gmap string json)) !! generated = None) as H2
    by reflexivity.
  assert (generated <> "") as H3 by discriminate.
  assert (hex24 generated = true) as H4 by reflexivity.
  assert (hexObjectId (JStr generated) = Some generated) as H5 by reflexivity.
  split; [exact H1|]. split; [exact H2|]. split; [exact H3|].
  split; [exact H4|]. split; [exact H5|].
  exact (POST_then_GET_id_returns_the_note hex24 hexObjectId ∅ body generated
           H1 H2 H3 H4 H5).
Defined.

(** DELETE removes exactly the addressed document: afterwards GET for that
    identifier answers 404, a second DELETE answers 404 and changes nothing,
    and every other document is as before. *)
Theorem DELETE_removes_exactly_that_note isValid newObjectId notes id oid doc :
  id <> "" -> isValid id = true -> newObjectId (JStr id) = Some oid ->
  notes !! oid = Some doc ->
  let db' := Up (delete oid notes) in
  DELETE newObjectId (Up notes) (Some id)
    = (success (<["success" := JBool true]> ∅), db')
  /\ response (GET_id isValid newObjectId db' id) = failure 404 "Note not found"
  /\ DELETE newObjectId db' (Some id) = (failure 404 "Note not found", db')
  /\ forall oid', oid' <> oid -> stored db' oid' = notes !! oid'.
Proof.
  intros Hne Hvalid Hoid Hdoc db'. unfold DELETE, GET_id.
  replace (String.eqb id "") with false by (symmetry; by apply String.eqb_neq).
  rewrite Hvalid, Hoid, Hdoc. simpl. rewrite lookup_delete_eq.
  split; [done|]. split; [done|]. split; [done|].
  intros oid' Hoid'. by rewrite lookup_delete_ne.
Qed.

Lemma DELETE_removes_exactly_that_note_witness :
  let oid := "0123456789abcdef01234567" in
  let doc : gmap string json := <["title" := JStr "t"]> ∅ in
  let notes : gmap string (gmap string json) := <[oid := doc]> ∅ in
  let db' := Up (delete oid notes) in
  oid <> "" /\ hex24 oid = true /\ hexObjectId (JStr oid) = Some oid
  /\ notes !! oid = Some doc
  /\ DELETE hexObjectId (Up notes) (Some oid)
     = (success (<["success" := JBool true]> ∅), db')
  /\ response (GET_id hex24 hexObjectId db' oid) = failure 404 "Note not found"
  /\ DELETE hexObjectId db' (Some oid) = (failure 404 "Note not found", db')
  /\ forall oid', oid' <> oid -> stored db' oid' = notes !! oid'.
Proof.
  intros oid doc notes db'.
  assert (oid <> "") as H1 by discriminate.
  assert (hex24 oid = true) as H2 by reflexivity.
  assert (hexObjectId (JStr oid) = Some oid) as H3 by reflexivity.
  assert (notes !! oid = Some doc) as H4 by reflexivity.
  split; [exact H1|]. split; [exact H2|]. split; [exact H3|]. split; [exact H4|].
  exact (DELETE_removes_exactly_that_note hex24 hexObjectId notes oid oid doc
           H1 H2 H3 H4).
Defined.

(** DELETE without an identifier, or with an empty one, answers 400 and
    leaves the database alone, whatever state it is in. *)
Lemma DELETE_missing_id newObjectId db :
  DELETE newObjectId db None = (failure 400 "Note ID is required", db)
  /\ DELETE newObjectId db (Some "") = (failure 400 "Note ID is required", db).
Proof. split; reflexivity. Qed.

(** PUT is idempotent: sending the same body again gives the same answer
    and the same database. *)
Theorem PUT_twice_is_PUT_once newObjectId db body :
  let once := PUT newObjectId db body in
  let twice := PUT newObjectId (database once) body in
  response twice = response once /\ database twice = database once.
Proof.
  unfold PUT. destruct (falsy (body !! "_id")); [done|].
  destruct db as [notes|]; [|done].
  destruct (body !! "_id" ≫= newObjectId) as [oid|] eqn:Hoid; [|done].
  destruct (notes !! oid) as [doc|] eqn:Hdoc; simpl; rewrite ?Hoid.
  - rewrite lookup_insert_eq. simpl. split; [done|]. f_equal.
    rewrite insert_insert_eq. f_equal. unfold applySet.
    by rewrite map_union_assoc, map_union_idemp.
  - by rewrite Hdoc.
Qed.

(** PUT neither creates nor removes a document, and it changes no document
    other than the one its body addresses; when it does not answer 200 it
    changes nothing at all. *)
Theorem PUT_touches_only_the_addressed_note newObjectId db body oid :
  let h := PUT newObjectId db body in
  (is_Some (stored (database h) oid) <-> is_Some (stored db oid))
  /\ (status (response h) <> 200 \/ body !! "_id" ≫= newObjectId <> Some oid ->
      stored (database h) oid = stored db oid).
Proof.
  unfold PUT. destruct (falsy (body !! "_id")); [done|].
  destruct db as [notes|]; [|done].
  destruct (body !! "_id" ≫= newObjectId) as [target|] eqn:Htarget; [|done].
  destruct (notes !! target) as [doc|] eqn:Hdoc; [|done].
  simpl. destruct (decide (oid = target)) as [-> | Hne].
  - rewrite lookup_insert_eq, Hdoc. split; [by split; eexists|].
    intros [H | H]; [done | congruence].
  - by rewrite lookup_insert_ne.
Qed.

(** GET /api/notes returns at most 20 notes, all of them when there are no
    more than 20, and each one is a stored document with its identifier. *)
Theorem GET_returns_at_most_twenty notes :
  exists data,
    GET (Up notes)
      = success (<["collection" := JStr "notes"]> (<["data" := JArr data]> ∅))
    /\ length data = Nat.min 20 (size notes)
    /\ forall note, note ∈ data ->
         exists oid doc,
           notes !! oid = Some doc /\ note = JObj (<["_id" := JStr oid]> doc).
Proof.
  eexists. split; [reflexivity|]. split.
  - rewrite length_fmap, length_take, length_map_to_list. done.
  - intros note Hin. apply list_elem_of_fmap in Hin as ([oid doc] & -> & Hin).
    apply elem_of_take in Hin as (i & Hi & _).
    apply list_elem_of_lookup_2, elem_of_map_to_list in Hi.
    by exists oid, doc.
Qed.

End RoutesFacts.

(** ** Saving: the debounce and the round trip through the API *)

Section SaveFacts.
Import Json Api AutoSave.

Lemma saves_snoc evs ev :
  saves (evs ++ [ev])
  = saves evs ++ match ev with Save n => [n] | Fire _ => [] end.
Proof. unfold saves. rewrite omap_app. by destruct ev. Qed.

Lemma run_snoc evs ev : run (evs ++ [ev]) = step (run evs) ev.
Proof. unfold run. by rewrite foldl_app. Qed.

Lemma step_settled st saved ev :
  settled st saved ->
  settled (step st ev)
          (saved ++ match ev with Save n => [n] | Fire _ => [] end).
Proof.
  intros Hst. destruct ev as [m | timeout]; simpl.
  - right. exists (nextTimeout st), m, saved.
    split; [|split; [done|]; split; [done|]].
    + destruct Hst as [[Hnone _] | (t & n & earlier & Hone & Href & _ & _)].
      * unfold debouncedSave. simpl. rewrite Hnone.
        by destruct (saveTimeoutRef st); rewrite ?delete_empty.
      * unfold debouncedSave. simpl. rewrite Href, Hone.
        by rewrite delete_singleton_eq.
    + destruct Hst as [[_ Hsub] | (t & n & earlier & _ & _ & -> & Hsub)];
        [done|].
      by apply sublist_inserts_r.
  - rewrite app_nil_r. unfold fire.
    destruct Hst as [[Hnone Hsub] | (t & n & earlier & Hone & Href & -> & Hsub)].
    + rewrite Hnone, lookup_empty. by left.
    + rewrite Hone. destruct (decide (timeout = t)) as [-> | Hne].
      * rewrite lookup_singleton_eq. left. simpl.
        split; [apply delete_singleton_eq|].
        rewrite reverse_cons. by apply sublist_app.
      * rewrite lookup_singleton_ne by done. right. by exists t, n, earlier.
Qed.

Lemma run_settled evs : settled (run evs) (saves evs).
Proof.
  induction evs as [|ev evs IH] using rev_ind.
  - left. split; [done | constructor].
  - rewrite run_snoc, saves_snoc. by apply step_settled.
Qed.

Lemma step_nextTimeout st ev : (nextTimeout st <= nextTimeout (step st ev))%nat.
Proof.
  destruct ev as [m | timeout]; simpl; [lia|].
  unfold fire. by destruct (timers st !! timeout).
Qed.

Lemma foldl_step_nextTimeout st evs :
  (nextTimeout st <= nextTimeout (foldl step st evs))%nat.
Proof.
  revert st. induction evs as [|ev evs IH]; intros st; simpl; [done|].
  etrans; [apply (step_nextTimeout st ev) | apply IH].
Qed.

(** After a further call of [debouncedSave] the cell holds a timeout set
    since. *)
Lemma foldl_step_cell st later :
  saves later <> [] ->
  exists timeout,
    saveTimeoutRef (foldl step st later) = Some timeout
    /\ (nextTimeout st <= timeout)%nat.
Proof.
  induction later as [|ev later IH] using rev_ind; [done|].
  rewrite saves_snoc, foldl_app. simpl.
  destruct ev as [m | timeout]; intros Hsaves.
  - eexists. split; [reflexivity|]. apply foldl_step_nextTimeout.
  - rewrite app_nil_r in Hsaves. destruct (IH Hsaves) as (t & Ht & Hle).
    exists t. split; [|done]. simpl. unfold fire.
    by destruct (timers _ !! timeout).
Qed.

Lemma fire_not_in_cell evs timeout :
  saveTimeoutRef (run evs) <> Some timeout ->
  sent (run (evs ++ [Fire timeout])) = sent (run evs).
Proof.
  intros Hcell. rewrite run_snoc. simpl. unfold fire.
  destruct (run_settled evs)
    as [[Hnone _] | (t & n & earlier & Hone & Href & _ & _)].
  - by rewrite Hnone, lookup_empty.
  - rewrite Hone, lookup_singleton_ne; [done|]. congruence.
Qed.

(** When a timeout fires, the note sent is the latest one handed to
    [debouncedSave], whatever was saved and fired before; a timeout that
    was superseded or has fired already sends nothing.  In detail: firing
    sends nothing or the latest note saved; the timeout set by a call sends
    that call's note when it fires next; a timeout other than the one in
    the cell sends nothing; the timeout of a call that was followed by
    another call sends nothing, whenever it fires; and a timeout that has
    fired sends nothing when fired again. *)
Theorem fired_timeout_sends_latest_note evs timeout :
  (sent (run (evs ++ [Fire timeout])) = sent (run evs)
   \/ exists n,
        last (saves evs) = Some n
        /\ sent (run (evs ++ [Fire timeout])) = n :: sent (run evs))
  /\ (forall n,
        sent (run (evs ++ [Save n; Fire (nextTimeout (run evs))]))
        = n :: sent (run evs))
  /\ (saveTimeoutRef (run evs) <> Some timeout ->
      sent (run (evs ++ [Fire timeout])) = sent (run evs))
  /\ (forall n later,
        saves later <> [] ->
        sent (run (evs ++ Save n :: later ++ [Fire (nextTimeout (run evs))]))
        = sent (run (evs ++ Save n :: later)))
  /\ sent (run (evs ++ [Fire timeout; Fire timeout]))
     = sent (run (evs ++ [Fire timeout])).
Proof.
  split; [|split; [|split; [|split]]].
  - rewrite run_snoc. simpl. unfold fire.
    destruct (run_settled evs)
      as [[Hnone _] | (t & n & earlier & Hone & _ & Hsaved & _)].
    + left. by rewrite Hnone, lookup_empty.
    + rewrite Hone. destruct (decide (timeout = t)) as [-> | Hne].
      * right. exists n. rewrite lookup_singleton_eq, Hsaved.
        split; [apply last_snoc | done].
      * left. by rewrite lookup_singleton_ne.
  - intros n. unfold run. rewrite foldl_app. simpl. unfold fire.
    cbn [debouncedSave timers]. by rewrite lookup_insert_eq.
  - apply fire_not_in_cell.
  - intros n later Hlater.
    replace (evs ++ Save n :: later ++ [Fire (nextTimeout (run evs))])
      with ((evs ++ Save n :: later) ++ [Fire (nextTimeout (run evs))])
      by (by rewrite <- app_assoc).
    apply fire_not_in_cell.
    unfold run at 1. rewrite foldl_app. simpl.
    destruct (foldl_step_cell (debouncedSave (foldl step initial evs) n) later
                Hlater) as (t & -> & Hle).
    simpl in Hle. unfold run. intros [= ->]. lia.
  - replace (evs ++ [Fire timeout; Fire timeout])
      with ((evs ++ [Fire timeout]) ++ [Fire timeout])
      by (by rewrite <- app_assoc).
    rewrite (run_snoc (evs ++ [Fire timeout])), (run_snoc evs). simpl.
    unfold fire at 1 3.
    destruct (timers (run evs) !! timeout) as [n|] eqn:Hn.
    + unfold fire. rewrite Hn. cbn [timers]. by rewrite lookup_delete_eq.
    + unfold fire. by rewrite !Hn.
Qed.

(** The notes sent are among the notes handed to [debouncedSave], in the
    same order and each at most once per save: never more PUTs than
    saves. *)
Theorem sent_notes_follow_the_saves evs :
  reverse (sent (run evs)) `sublist_of` saves evs
  /\ (length (sent (run evs)) <= length (saves evs))%nat.
Proof.
  assert (reverse (sent (run evs)) `sublist_of` saves evs) as Hsub.
  { destruct (run_settled evs)
      as [[_ Hsub] | (t & n & earlier & _ & _ & -> & Hsub)];
      [done | by apply sublist_inserts_r]. }
  split; [done|].
  apply sublist_length in Hsub. by rewrite length_reverse in Hsub.
Qed.

(** Two saves before the first timeout fires: one note is sent, the second
    one. *)
Example two_saves_one_put (a b : gmap string json) :
  sent (run [Save a; Save b; Fire 1; Fire 2]) = [b].
Proof. reflexivity. Qed.

(** Saving and reloading: after the PUT that [saveNote] sends for a note
    with array content, GET /api/notes/[id] returns a note with the same
    content, which the page's conversion on load leaves as it is; every
    other saved field except the timestamp comes back as well. *)
Theorem save_then_reload_keeps_content isValid newObjectId notes n noteId now
    oid doc :
  noteId <> "" -> isValid noteId = true ->
  newObjectId (JStr noteId) = Some oid -> notes !! oid = Some doc ->
  NotePage.arrayContent n ->
  let saved :=
    database (PUT newObjectId (Up notes) (NotePage.saveNote n noteId now)) in
  exists loaded,
    response (GET_id isValid newObjectId saved noteId)
      = success (<["note" := JObj loaded]> ∅)
    /\ (forall s uuid,
          NotePage.note (NotePage.fetched s loaded uuid) !! "content"
          = n !! "content")
    /\ (forall f v, f <> "_id" -> f <> "updatedAt" ->
          n !! f = Some v -> loaded !! f = Some v).
Proof.
  intros Hne Hvalid Hoid Hdoc Harray saved.
  assert (String.eqb noteId "" = false) as Hneb by (by apply String.eqb_neq).
  assert (saved
          = Up (<[oid := applySet (delete "_id" (NotePage.saveNote n noteId now))
                           doc]> notes)) as ->.
  { unfold saved, PUT, NotePage.saveNote.
    rewrite lookup_insert_ne, lookup_insert_eq by done.
    simpl. by rewrite Hneb, Hoid, Hdoc. }
  unfold GET_id. rewrite Hneb, Hvalid, Hoid. simpl. rewrite lookup_insert_eq.
  eexists. split; [reflexivity|].
  assert (forall f v, f <> "_id" -> f <> "updatedAt" -> n !! f = Some v ->
          (<["_id" := JStr oid]>
             (applySet (delete "_id" (NotePage.saveNote n noteId now)) doc))
            !! f = Some v) as Hfields.
  { intros f v Hid Hup Hf. rewrite lookup_insert_ne by done.
    unfold applySet. apply lookup_union_Some_l.
    rewrite lookup_delete_ne by done. unfold NotePage.saveNote.
    by rewrite !lookup_insert_ne. }
  split; [|exact Hfields].
  intros s uuid. unfold NotePage.fetched. simpl. rewrite lookup_insert_eq.
  unfold NotePage.arrayContent in Harray.
  destruct (n !! "content") as [[| | | | xs |]|] eqn:Hcontent; try done.
  by rewrite (Hfields "content" (JArr xs)).
Qed.

Lemma save_then_reload_keeps_content_witness :
  let oid := "0123456789abcdef01234567" in
  let notes : gmap string (gmap string json) :=
    <[oid := Dashboard.createNewNote "2026-01-01T00:00:00.000Z"]> ∅ in
  let n : gmap string json :=
    <["title" := JStr "Shopping"]>
      (<["content" := ofBlocks [BlockEditor.emptyTextBlock "a"]]> ∅) in
  let saved :=
    database (PUT hexObjectId (Up notes)
                (NotePage.saveNote n oid "2026-01-02T00:00:00.000Z")) in
  oid <> "" /\ hex24 oid = true /\ hexObjectId (JStr oid) = Some oid
  /\ notes !! oid = Some (Dashboard.createNewNote "2026-01-01T00:00:00.000Z")
  /\ NotePage.arrayContent n
  /\ exists loaded,
       response (GET_id hex24 hexObjectId saved oid)
         = success (<["note" := JObj loaded]> ∅)
       /\ (forall s uuid,
             NotePage.note (NotePage.fetched s loaded uuid) !! "content"
             = n !! "content")
       /\ (forall f v, f <> "_id" -> f <> "updatedAt" ->
             n !! f = Some v -> loaded !! f = Some v).
Proof.
  intros oid notes n saved.
  assert (oid <> "") as H1 by discriminate.
  assert (hex24 oid = true) as H2 by reflexivity.
  assert (hexObjectId (JStr oid) = Some oid) as H3 by reflexivity.
  assert (notes !! oid
          = Some (Dashboard.createNewNote "2026-01-01T00:00:00.000Z")) as H4
    by reflexivity.
  assert (NotePage.arrayContent n) as H5 by reflexivity.
  split; [exact H1|]. split; [exact H2|]. split; [exact H3|].
  split; [exact H4|]. split; [exact H5|].
  exact (save_then_reload_keeps_content hex24 hexObjectId notes n oid
           "2026-01-02T00:00:00.000Z" oid _ H1 H2 H3 H4 H5).
Defined.

End SaveFacts.
